(** * spyns: the Heisenberg model evaluators ([spyns/model/heisenberg.py])

    A shallow embedding of the energy and estimator evaluators of the
    Heisenberg model, together with the properties the specification states
    about them.

    Conventions of the embedding.
    - A double is a binary64 number ([float], the primitive floats of the
      kernel): every sum, product and quotient is rounded to nearest, ties to
      even, as the hardware does, and is written in the order in which the
      source evaluates it.  Equality of doubles is equality of their bits
      (there is one NaN).
    - A one-dimensional numpy array is a [list].  A Python integer (a site
      index, [number_sites]) is a [Z]; an entry of an integer array is an
      int64, read modulo [2^64].  Indexing follows numpy: a negative index
      counts from the end, an index outside [[-len, len)] raises [IndexError],
      or [OverflowError] when it does not fit a C long, a slice is clipped to
      the array and never raises.
    - A Python function that receives [data] is a computation in a state and
      exception monad over [SimulationData]; a raised exception keeps the
      state reached so far.
    - [np.sin], [np.cos] and [np.arccos] are the routines of the C library;
      the embedding takes them as parameters and assumes nothing about their
      values. *)

From Stdlib Require Import ZArith List Bool Lia Permutation.
From Stdlib Require Import Floats.
Import ListNotations.

(** ** Exceptions and the state monad *)

Inductive exn : Type :=
| IndexError
| ValueError
| OverflowError.

Inductive result (A : Type) : Type :=
| Ok (a : A)
| Raise (e : exn).

Arguments Ok {A} a.
Arguments Raise {A} e.

Definition M (S A : Type) : Type := S -> result A * S.

Definition ret {S A : Type} (a : A) : M S A := fun s => (Ok a, s).

Definition bind {S A B : Type} (m : M S A) (k : A -> M S B) : M S B :=
  fun s =>
    match m s with
    | (Ok a, s') => k a s'
    | (Raise e, s') => (Raise e, s')
    end.

Definition gets {S A : Type} (f : S -> A) : M S A := fun s => (Ok (f s), s).

Definition modify {S : Type} (f : S -> S) : M S unit := fun s => (Ok tt, f s).

Definition lift {S A : Type} (r : result A) : M S A := fun s => (r, s).

Declare Scope monad_scope.
Delimit Scope monad_scope with monad.
Notation "x <- c ;; k" := (bind c (fun x => k))
  (at level 61, c at next level, right associativity) : monad_scope.
Notation "c ;;; k" := (bind c (fun _ => k))
  (at level 61, right associativity) : monad_scope.
Local Open Scope monad_scope.

(** The value and the final state of a computation. *)
Definition eval {S A : Type} (m : M S A) (s : S) : result A := fst (m s).
Definition exec {S A : Type} (m : M S A) (s : S) : S := snd (m s).

(** [for v in l: acc = body v acc] *)
Fixpoint for_each {S A B : Type} (l : list A) (body : A -> B -> M S B) (acc : B)
  : M S B :=
  match l with
  | [] => ret acc
  | a :: l' => acc' <- body a acc ;; for_each l' body acc'
  end.

(** The same on plain results: [[f v for v in l]], stopping at the first
    exception. *)
Fixpoint traverse {A B : Type} (f : A -> result B) (l : list A) : result (list B) :=
  match l with
  | [] => Ok []
  | a :: l' =>
      match f a with
      | Ok b =>
          match traverse f l' with
          | Ok bs => Ok (b :: bs)
          | Raise e => Raise e
          end
      | Raise e => Raise e
      end
  end.

(** ** Integers *)

(** The Python integers that fit a C long, hence an index of numpy. *)
Definition fits_c_long (i : Z) : bool := ((- 2 ^ 63 <=? i) && (i <? 2 ^ 63))%Z.

(** The int64 that an integer array holds for an integer: its value modulo
    [2^64], in [[-2^63, 2^63)]. *)
Definition int64 (v : Z) : Z := ((v + 2 ^ 63) mod 2 ^ 64 - 2 ^ 63)%Z.

(** The sum of two int64 scalars: numpy wraps around on overflow. *)
Definition int64_add (a b : Z) : Z := int64 (a + b).

(** ** numpy primitives used by the module *)

Definition np_len {A : Type} (a : list A) : Z := Z.of_nat (length a).

(** [range(n)]: empty when [n <= 0]. *)
Definition range (n : Z) : list Z := map Z.of_nat (seq 0 (Z.to_nat n)).

(** The position an index denotes: negative indices count from the end. *)
Definition np_wrap (len i : Z) : Z := if (i <? 0)%Z then (i + len)%Z else i.

(** The element an index denotes, if it lies within [[-len, len)]. *)
Definition np_lookup {A : Type} (a : list A) (i : Z) : option A :=
  let j := np_wrap (np_len a) i in
  if ((0 <=? j) && (j <? np_len a))%Z then nth_error a (Z.to_nat j) else None.

(** What numpy raises for a Python integer that is no index of an array: an
    array has fewer than [2^63] elements, so an integer that does not fit a C
    long is never an index, and it is refused with [OverflowError] when it is
    converted. *)
Definition index_failure (i : Z) : exn :=
  if fits_c_long i then IndexError else OverflowError.

(** [a[i]] for a Python integer [i]. *)
Definition np_getitem {A : Type} (a : list A) (i : Z) : result A :=
  match np_lookup a i with
  | Some v => Ok v
  | None => Raise (index_failure i)
  end.

(** [a[i]] for an integer array [a]: the entry is an int64. *)
Definition np_getitem_int64 (a : list Z) (i : Z) : result Z :=
  match np_getitem a i with
  | Ok v => Ok (int64 v)
  | Raise e => Raise e
  end.

(** [a[idx]] for an integer array [idx] (a gather; the result is a copy).
    The indices are int64 entries, so the only failure is [IndexError]. *)
Definition np_take {A : Type} (a : list A) (idx : list Z) : result (list A) :=
  traverse (fun j => match np_lookup a j with
                     | Some v => Ok v
                     | None => Raise IndexError
                     end)
           idx.

(** A slice bound after wrapping and clipping to [[0, len]]. *)
Definition np_clip (len i : Z) : Z := Z.max 0 (Z.min len (np_wrap len i)).

(** [a[start:stop]]. *)
Definition np_slice {A : Type} (a : list A) (start stop : Z) : list A :=
  let lo := np_clip (np_len a) start in
  let hi := np_clip (np_len a) stop in
  firstn (Z.to_nat (hi - lo)) (skipn (Z.to_nat lo) a).

(** [a == v] for an integer array [a]. *)
Definition np_equal (a : list Z) (v : Z) : list bool := map (fun e => (e =? v)%Z) a.

Fixpoint select {A : Type} (a : list A) (mask : list bool) : list A :=
  match a, mask with
  | v :: a', b :: mask' => if b then v :: select a' mask' else select a' mask'
  | _, _ => []
  end.

(** [a[mask]] for a boolean array [mask]: the lengths must agree. *)
Definition np_mask {A : Type} (a : list A) (mask : list bool) : result (list A) :=
  if (length a =? length mask)%nat then Ok (select a mask) else Raise IndexError.

(** [a[i] = v] for a Python integer [i]. *)
Fixpoint replace_nth {A : Type} (n : nat) (v : A) (a : list A) : list A :=
  match a, n with
  | [], _ => []
  | _ :: a', O => v :: a'
  | w :: a', S n' => w :: replace_nth n' v a'
  end.

Definition np_setitem {A : Type} (a : list A) (i : Z) (v : A) : result (list A) :=
  let j := np_wrap (np_len a) i in
  if ((0 <=? j) && (j <? np_len a))%Z
  then Ok (replace_nth (Z.to_nat j) v a)
  else Raise (index_failure i).

(** *** Sums of doubles *)

(** [res += a[i]] for every [i], from the left. *)
Definition add_from_left (res : float) (a : list float) : float :=
  fold_left PrimFloat.add a res.

(** [r[k] += a[k]] for the eight accumulators of numpy's unrolled loop. *)
Fixpoint add_lanes (r a : list float) : list float :=
  match r, a with
  | u :: r', v :: a' => (u + v)%float :: add_lanes r' a'
  | _, _ => r
  end.

(** The unrolled loop: [blocks] further groups of eight elements are added to
    the accumulators; what is left of the array is returned with them. *)
Fixpoint accumulate_lanes (blocks : nat) (r a : list float)
  : list float * list float :=
  match blocks with
  | O => (r, a)
  | S b => accumulate_lanes b (add_lanes r (firstn 8 a)) (skipn 8 a)
  end.

(** [((r[0] + r[1]) + (r[2] + r[3])) + ((r[4] + r[5]) + (r[6] + r[7]))] *)
Definition sum_lanes (r : list float) : float :=
  match r with
  | [r0; r1; r2; r3; r4; r5; r6; r7] =>
      (((r0 + r1) + (r2 + r3)) + ((r4 + r5) + (r6 + r7)))%float
  | _ => add_from_left 0%float r
  end.

(** A block of 8 to 128 elements: the first eight start the accumulators, the
    further full groups of eight are added to them, the accumulators are
    added up, and the remaining elements are added from the left. *)
Definition pairwise_block (a : list float) : float :=
  let '(r, rest) :=
    accumulate_lanes (length a / 8 - 1) (firstn 8 a) (skipn 8 a) in
  add_from_left (sum_lanes r) rest.

(** numpy's pairwise summation of a contiguous array: fewer than 8 elements
    are added from the left, starting from [0.]; up to 128 elements form one
    block; a longer array is cut at [n / 2] rounded down to a multiple of 8
    and the sums of the two parts are added.  [depth] bounds the number of
    cuts; the length of the array is more than enough. *)
Fixpoint pairwise_sum_rec (depth : nat) (a : list float) : float :=
  let n := length a in
  if (n <? 8)%nat then add_from_left 0%float a
  else if (n <=? 128)%nat then pairwise_block a
  else match depth with
       | O => pairwise_block a
       | S d =>
           let n2 := (n / 2 - (n / 2) mod 8)%nat in
           (pairwise_sum_rec d (firstn n2 a) + pairwise_sum_rec d (skipn n2 a))%float
       end.

Definition pairwise_sum (a : list float) : float := pairwise_sum_rec (length a) a.

(** [np.sum(a)] and [a.sum()]: the reduction starts from the identity [0.] of
    the addition and adds the pairwise sum of the array to it. *)
Definition np_sum (a : list float) : float := (0 + pairwise_sum a)%float.

Arguments np_sum : simpl never.

(** *** Arithmetic on arrays of doubles *)

(** [s * a] for a scalar [s]. *)
Definition np_scale (s : float) (a : list float) : list float :=
  map (PrimFloat.mul s) a.

(** Elementwise binary operation on two one-dimensional arrays, with numpy's
    broadcasting: equal lengths, or one operand of length one. *)
Definition np_binop (f : float -> float -> float) (a b : list float)
  : result (list float) :=
  if (length a =? length b)%nat then Ok (map (fun p => f (fst p) (snd p)) (combine a b))
  else match a, b with
       | [u], _ => Ok (map (f u) b)
       | _, [v] => Ok (map (fun u => f u v) a)
       | _, _ => Raise ValueError
       end.

Definition np_add : list float -> list float -> result (list float) :=
  np_binop PrimFloat.add.
Definition np_multiply : list float -> list float -> result (list float) :=
  np_binop PrimFloat.mul.

(** ** Data model *)

Definition vec3 : Type := (float * float * float)%type.

(** [u[0] * v[0] + u[1] * v[1] + u[2] * v[2]], added from the left. *)
Definition dot (u v : vec3) : float :=
  let '(ux, uy, uz) := u in
  let '(vx, vy, vz) := v in
  (ux * vx + uy * vy + uz * vz)%float.

(** Modelled from the spec: the containers of [spyns.data], which is not part
    of the sources at hand. Their fields are the ones the functions below read
    and the data model of the specification lists, with the same names. *)

(** The Heisenberg state: one array per spatial component. *)
Module HeisenbergState.
Record t : Type := make { x : list float; y : list float; z : list float }.
End HeisenbergState.

(** The neighbor states of a site ([NeighborStates], a frozen dataclass). *)
Module NeighborStates.
Record t : Type := make {
  x : list float;
  y : list float;
  z : list float;
  interaction_parameters : list float
}.
End NeighborStates.

(** Modelled from the spec: the flattened neighbor tables of [spyns.data];
    the integer tables are int64 arrays, numpy's default integer type. *)
Record LookupTables : Type := {
  number_sites : Z;
  number_sublattices : Z;
  sublattice_table : list Z;
  neighbors_count : list Z;
  neighbors_lookup_index : list Z;
  neighbors_table : list Z;
  interaction_parameters_table : list float
}.

(** Modelled from the spec: the estimator container of [spyns.data], which is
    not part of the sources at hand.  [energy] is the array whose element [0]
    [save_full_state] writes; [spin_vector] is the
    [number_sublattices] x 3 array, one row per sublattice. *)
Record Estimators : Type := {
  energy : list float;
  spin_vector : list vec3
}.

(** Modelled from the spec: the simulation container of [spyns.data],
    restricted to the three fields this module touches. *)
Record SimulationData : Type := {
  state : HeisenbergState.t;
  lookup_tables : LookupTables;
  estimators : Estimators
}.

Definition set_estimators (f : Estimators -> Estimators) (data : SimulationData)
  : SimulationData :=
  {| state := state data;
     lookup_tables := lookup_tables data;
     estimators := f (estimators data) |}.

(** ** The evaluators, function by function *)

Definition get_site_spin_vector (site_index : Z) : M SimulationData vec3 :=
  sx <- gets (fun data => HeisenbergState.x (state data)) ;;
  vx <- lift (np_getitem sx site_index) ;;
  sy <- gets (fun data => HeisenbergState.y (state data)) ;;
  vy <- lift (np_getitem sy site_index) ;;
  sz <- gets (fun data => HeisenbergState.z (state data)) ;;
  vz <- lift (np_getitem sz site_index) ;;
  ret (vx, vy, vz).

(** The slice of [interaction_parameters_table] that numpy returns is a view
    of the table; nothing below writes through it, so it is read here as the
    list of its entries.  [lookup_start + neighbors_count] adds two int64
    scalars. *)
Definition lookup_neighbor_states (site_index : Z)
  : M SimulationData NeighborStates.t :=
  counts <- gets (fun data => neighbors_count (lookup_tables data)) ;;
  count <- lift (np_getitem_int64 counts site_index) ;;
  offsets <- gets (fun data => neighbors_lookup_index (lookup_tables data)) ;;
  lookup_start <- lift (np_getitem_int64 offsets site_index) ;;
  let lookup_end := int64_add lookup_start count in
  table <- gets (fun data => neighbors_table (lookup_tables data)) ;;
  let neighbor_indices := np_slice table lookup_start lookup_end in
  sx <- gets (fun data => HeisenbergState.x (state data)) ;;
  neighbors_states_x <- lift (np_take sx neighbor_indices) ;;
  sy <- gets (fun data => HeisenbergState.y (state data)) ;;
  neighbors_states_y <- lift (np_take sy neighbor_indices) ;;
  sz <- gets (fun data => HeisenbergState.z (state data)) ;;
  neighbors_states_z <- lift (np_take sz neighbor_indices) ;;
  params <- gets (fun data => interaction_parameters_table (lookup_tables data)) ;;
  let interaction_parameters := np_slice params lookup_start lookup_end in
  ret (NeighborStates.make neighbors_states_x neighbors_states_y
         neighbors_states_z interaction_parameters).

(** The arithmetic of [compute_energy_of_spin_vector_at_site] once the
    neighbor states are gathered:
    [np.sum(J * (s[0] * x + s[1] * y + s[2] * z))]. *)
Definition weighted_alignment (site_spin : vec3) (ns : NeighborStates.t)
  : result float :=
  let '(s0, s1, s2) := site_spin in
  match np_add (np_scale s0 (NeighborStates.x ns))
               (np_scale s1 (NeighborStates.y ns)) with
  | Ok xy =>
      match np_add xy (np_scale s2 (NeighborStates.z ns)) with
      | Ok xyz =>
          match np_multiply (NeighborStates.interaction_parameters ns) xyz with
          | Ok terms => Ok (np_sum terms)
          | Raise e => Raise e
          end
      | Raise e => Raise e
      end
  | Raise e => Raise e
  end.

Definition compute_energy_of_spin_vector_at_site (site_spin : vec3) (site_index : Z)
  : M SimulationData float :=
  neighbor_states <- lookup_neighbor_states site_index ;;
  lift (weighted_alignment site_spin neighbor_states).

Definition compute_site_energy (site_index : Z) : M SimulationData float :=
  site_spin <- get_site_spin_vector site_index ;;
  compute_energy_of_spin_vector_at_site site_spin site_index.

(** [total_energy] starts as the integer [0], which the first [+=] converts to
    the double [0.]; the site energies are added to it one by one, and the
    result is divided by [2.0]. *)
Definition compute_total_energy : M SimulationData float :=
  n <- gets (fun data => number_sites (lookup_tables data)) ;;
  total_energy <-
    for_each (range n)
      (fun site_index total_energy =>
         e <- compute_site_energy site_index ;;
         ret (total_energy + e)%float)
      0%float ;;
  ret (total_energy / 2)%float.

(** [np.zeros(shape=(rows, 3))] *)
Definition np_zeros_rows (rows : Z) : result (list vec3) :=
  if (rows <? 0)%Z then Raise ValueError
  else Ok (repeat (0, 0, 0)%float (Z.to_nat rows)).

Definition sum_spin_vectors_within_sublattices : M SimulationData (list vec3) :=
  sublattice_indices <- gets (fun data => sublattice_table (lookup_tables data)) ;;
  rows <- gets (fun data => number_sublattices (lookup_tables data)) ;;
  spin_vector0 <- lift (np_zeros_rows rows) ;;
  for_each (range rows)
    (fun sublattice spin_vector =>
       sx <- gets (fun data => HeisenbergState.x (state data)) ;;
       gx <- lift (np_mask sx (np_equal sublattice_indices sublattice)) ;;
       sy <- gets (fun data => HeisenbergState.y (state data)) ;;
       gy <- lift (np_mask sy (np_equal sublattice_indices sublattice)) ;;
       sz <- gets (fun data => HeisenbergState.z (state data)) ;;
       gz <- lift (np_mask sz (np_equal sublattice_indices sublattice)) ;;
       lift (np_setitem spin_vector sublattice (np_sum gx, np_sum gy, np_sum gz)))
    spin_vector0.

(** [target[:, :] = value] on arrays of rows: equal row counts, or a single
    row broadcast to every row of the target. *)
Definition np_assign_rows (target value : list vec3) : result (list vec3) :=
  if (length value =? length target)%nat then Ok value
  else match value with
       | [row] => Ok (repeat row (length target))
       | _ => Raise ValueError
       end.

Definition save_full_state : M SimulationData unit :=
  total_energy <- compute_total_energy ;;
  old_energy <- gets (fun data => energy (estimators data)) ;;
  new_energy <- lift (np_setitem old_energy 0 total_energy) ;;
  modify (set_estimators (fun est =>
            {| energy := new_energy; spin_vector := spin_vector est |})) ;;;
  sums <- sum_spin_vectors_within_sublattices ;;
  old_vectors <- gets (fun data => spin_vector (estimators data)) ;;
  new_vectors <- lift (np_assign_rows old_vectors sums) ;;
  modify (set_estimators (fun est =>
            {| energy := energy est; spin_vector := new_vectors |})).

(** ** Sampling a random state *)

(** numpy's process-wide generator ([np.random]), abstracted as the sequence
    of doubles of [[0, 1)] it is going to produce and the number of them
    already consumed.  The generator algorithm itself belongs to numpy. *)
Record RandomState : Type := {
  draws : nat -> float;
  cursor : nat
}.

(** One double from the generator. *)
Definition random_sample : M RandomState float :=
  fun g => (Ok (draws g (cursor g)), {| draws := draws g; cursor := S (cursor g) |}).

Fixpoint random_samples (n : nat) : M RandomState (list float) :=
  match n with
  | O => ret []
  | S n' => u <- random_sample ;; us <- random_samples n' ;; ret (u :: us)
  end.

(** [np.random.uniform(low, high, size)]: [low + (high - low) * u] for each
    double [u] drawn; a negative [size] is refused. *)
Definition np_random_uniform (low high : float) (size : Z)
  : M RandomState (list float) :=
  if (size <? 0)%Z then lift (Raise ValueError)
  else us <- random_samples (Z.to_nat size) ;;
       ret (map (fun u => low + (high - low) * u)%float us).

(** [np.pi], the double nearest to the number pi. *)
Definition np_pi : float := 0x1.921fb54442d18p+1%float.

Section Sampling.

(** The routines of the C library behind [np.sin], [np.cos] and
    [np.arccos]. *)
Variables np_sin np_cos np_arccos : float -> float.

Definition sample_random_state (number_sites : Z)
  : M RandomState HeisenbergState.t :=
  u <- np_random_uniform 0%float 1%float number_sites ;;
  let theta := np_scale (2 * np_pi)%float u in
  v <- np_random_uniform (-1)%float 1%float number_sites ;;
  let phi := map np_arccos v in
  let sin_phi := map np_sin phi in
  sx <- lift (np_multiply sin_phi (map np_cos theta)) ;;
  sy <- lift (np_multiply sin_phi (map np_sin theta)) ;;
  ret (HeisenbergState.make sx sy (map np_cos phi)).

End Sampling.

(** ** Notions the specification speaks of *)

(** A computation that leaves the state as it found it. *)
Definition read_only {S A : Type} (m : M S A) : Prop := forall s, exec m s = s.

(** An index numpy accepts for an array: [[-len, len)]. *)
Definition valid_index {A : Type} (a : list A) (i : Z) : Prop :=
  (- np_len a <= i < np_len a)%Z.

(** The spin vector stored for a site of the range. *)
Definition spin_at (st : HeisenbergState.t) (i : Z) : vec3 :=
  (nth (Z.to_nat i) (HeisenbergState.x st) 0%float,
   nth (Z.to_nat i) (HeisenbergState.y st) 0%float,
   nth (Z.to_nat i) (HeisenbergState.z st) 0%float).

(** The positions [[neighbors_lookup_index[i], neighbors_lookup_index[i] +
    neighbors_count[i])] of the flattened tables. *)
Definition block_positions (tb : LookupTables) (i : Z) : list nat :=
  seq (Z.to_nat (nth (Z.to_nat i) (neighbors_lookup_index tb) 0%Z))
      (Z.to_nat (nth (Z.to_nat i) (neighbors_count tb) 0%Z)).

(** The neighbors a site lists, each with its coupling: the entries of
    [neighbors_table] and [interaction_parameters_table] at the positions of
    the site's block. *)
Definition listed_neighbors (tb : LookupTables) (i : Z) : list (Z * float) :=
  map (fun k => (nth k (neighbors_table tb) 0%Z,
                 nth k (interaction_parameters_table tb) 0%float))
      (block_positions tb i).

Definition in_range (len i : Z) : bool := ((0 <=? i) && (i <? len))%Z.

(** The data-model constraints that concern one site: the site is an index of
    the per-site arrays, its block lies inside both flattened tables (whose
    positions are int64 values), and every neighbor it lists is a site of the
    state. *)
Definition wf_site (data : SimulationData) (i : Z) : bool :=
  let st := state data in
  let tb := lookup_tables data in
  let start := nth (Z.to_nat i) (neighbors_lookup_index tb) 0%Z in
  let count := nth (Z.to_nat i) (neighbors_count tb) 0%Z in
  in_range (np_len (HeisenbergState.x st)) i
  && in_range (np_len (HeisenbergState.y st)) i
  && in_range (np_len (HeisenbergState.z st)) i
  && in_range (np_len (neighbors_count tb)) i
  && in_range (np_len (neighbors_lookup_index tb)) i
  && (0 <=? start)%Z && (0 <=? count)%Z
  && (start + count <? 2 ^ 63)%Z
  && (start + count <=? np_len (neighbors_table tb))%Z
  && (start + count <=? np_len (interaction_parameters_table tb))%Z
  && forallb (fun nb =>
                in_range (np_len (HeisenbergState.x st)) (fst nb)
                && in_range (np_len (HeisenbergState.y st)) (fst nb)
                && in_range (np_len (HeisenbergState.z st)) (fst nb))
             (listed_neighbors tb i).

Definition wf_data (data : SimulationData) : bool :=
  forallb (wf_site data) (range (number_sites (lookup_tables data))).

(** *** Bonds *)

(** A bond as the tables record it: the listing site, the listed neighbor and
    the coupling. *)
Definition bond : Type := (Z * Z * float)%type.

Definition swap_bond (b : bond) : bond :=
  let '(i, j, J) := b in (j, i, J).

(** The double [J_ij * (s_i . s_j)] of a bond, as the code evaluates it. *)
Definition bond_energy (st : HeisenbergState.t) (b : bond) : float :=
  let '(i, j, J) := b in (J * dot (spin_at st i) (spin_at st j))%float.

(** The bonds a site lists, in the order of its block. *)
Definition site_bonds (tb : LookupTables) (i : Z) : list bond :=
  map (fun nb => (i, fst nb, snd nb)) (listed_neighbors tb i).

(** Every entry of the tables, site by site. *)
Definition directed_bonds (tb : LookupTables) : list bond :=
  flat_map (site_bonds tb) (range (number_sites tb)).

(** The doubles [J_ij * (s . s_j)] that a spin vector [s] at site [i] has
    with the neighbors the site lists, in the order of its block. *)
Definition neighbor_terms (st : HeisenbergState.t) (tb : LookupTables)
           (s : vec3) (i : Z) : list float :=
  map (fun nb => (snd nb * dot s (spin_at st (fst nb)))%float)
      (listed_neighbors tb i).

(** The doubles that the energy of a site adds up, in the order of its
    block. *)
Definition site_terms (data : SimulationData) (i : Z) : list float :=
  map (bond_energy (state data)) (site_bonds (lookup_tables data) i).

(** All the doubles that enter the total energy, site by site. *)
Definition energy_terms (data : SimulationData) : list float :=
  map (bond_energy (state data)) (directed_bonds (lookup_tables data)).

(** The sum of the doubles of a list of bonds, as [np.sum] adds them. *)
Definition bond_sum (st : HeisenbergState.t) (bonds : list bond) : float :=
  np_sum (map (bond_energy st) bonds).

(** "Site A lists site B with coupling J". *)
Definition lists (tb : LookupTables) (a b : Z) (J : float) : Prop :=
  In (a, b, J) (directed_bonds tb).

(** The symmetry invariant in the words of the specification: A lists B with
    coupling J iff B lists A with the same J. *)
Definition bond_symmetric (tb : LookupTables) : Prop :=
  forall a b J, lists tb a b J <-> lists tb b a J.

(** The same invariant counted with multiplicity: A lists B with coupling J as
    many times as B lists A with J. *)
Definition bond_symmetric_counted (tb : LookupTables) : Prop :=
  Permutation (directed_bonds tb) (map swap_bond (directed_bonds tb)).

(** The invariant with the bonds named: [bonds] are the undirected bonds, and
    the tables record each of them once from each endpoint and nothing
    else. *)
Definition records_each_bond_twice (tb : LookupTables) (bonds : list bond) : Prop :=
  Permutation (directed_bonds tb) (bonds ++ map swap_bond bonds).

(** One representative per unordered pair of sites: the entries listed from the
    endpoint with the smaller (or equal) index. *)
Definition listed_from_lower (b : bond) : bool :=
  (fst (fst b) <=? snd (fst b))%Z.

Definition lower_bonds (tb : LookupTables) : list bond :=
  filter listed_from_lower (directed_bonds tb).

Definition no_self_listing (tb : LookupTables) (i : Z) : Prop :=
  forall J, ~ lists tb i i J.

(** Half the sum of the site energies over [range(number_sites)], added from
    the left to [0.] and divided by [2.0], or the first exception a site
    raises. *)
Definition half_sum_of_site_energies (data : SimulationData) : result float :=
  match traverse (fun i => eval (compute_site_energy i) data)
                 (range (number_sites (lookup_tables data))) with
  | Ok es => Ok (add_from_left 0 es / 2)%float
  | Raise e => Raise e
  end.

(** The total energy of a lattice whose sites add up the given doubles. *)
Definition total_of_terms (terms : list (list float)) : float :=
  (add_from_left 0 (map np_sum terms) / 2)%float.

(** Modelled from the spec: [write_site(index, value)], the in-place update of
    one site's spin by the Metropolis engine, which is not part of the sources
    at hand. *)
Definition write_site (i : Z) (s : vec3) (data : SimulationData) : SimulationData :=
  let st := state data in
  let '(s0, s1, s2) := s in
  {| state :=
       HeisenbergState.make
         (replace_nth (Z.to_nat i) s0 (HeisenbergState.x st))
         (replace_nth (Z.to_nat i) s1 (HeisenbergState.y st))
         (replace_nth (Z.to_nat i) s2 (HeisenbergState.z st));
     lookup_tables := lookup_tables data;
     estimators := estimators data |}.

(** The entries of the tables seen from a site [i]: those the site lists,
    those that list it from another site, and those that leave it alone. *)
Definition listed_by (i : Z) (b : bond) : bool := (fst (fst b) =? i)%Z.

Definition lists_site (i : Z) (b : bond) : bool :=
  negb (fst (fst b) =? i)%Z && (snd (fst b) =? i)%Z.

Definition away_from (i : Z) (b : bond) : bool :=
  negb (fst (fst b) =? i)%Z && negb (snd (fst b) =? i)%Z.

(** *** Rotations *)

(** The rotation matrices that map every vector of doubles to a vector of
    doubles without rounding are those with entries [0], [1] and [-1]: the
    rotations of the cube.  Such a matrix has one entry [1] or [-1] in every
    row; it is given, row by row, by the axis of that entry and by whether
    the entry is [-1]. *)
Inductive axis : Type := axis_x | axis_y | axis_z.

Definition signed_axis : Type := (axis * bool)%type.

Definition cube_map : Type := (signed_axis * signed_axis * signed_axis)%type.

(** The product of a row with a vector: the component on the axis of the row,
    negated when the entry is [-1]. *)
Definition component (v : vec3) (r : signed_axis) : float :=
  let '(vx, vy, vz) := v in
  let c := match fst r with axis_x => vx | axis_y => vy | axis_z => vz end in
  if snd r then (- c)%float else c.

Definition mat_apply (m : cube_map) (v : vec3) : vec3 :=
  let '(r0, r1, r2) := m in (component v r0, component v r1, component v r2).

(** The entries of a row. *)
Definition row_entries (r : signed_axis) : Z * Z * Z :=
  let e := if snd r then (-1)%Z else 1%Z in
  match fst r with
  | axis_x => (e, 0, 0)%Z
  | axis_y => (0, e, 0)%Z
  | axis_z => (0, 0, e)%Z
  end.

Definition det (m : cube_map) : Z :=
  let '(r0, r1, r2) := m in
  let '(a00, a01, a02) := row_entries r0 in
  let '(a10, a11, a12) := row_entries r1 in
  let '(a20, a21, a22) := row_entries r2 in
  (a00 * (a11 * a22 - a12 * a21)
   - a01 * (a10 * a22 - a12 * a20)
   + a02 * (a10 * a21 - a11 * a20))%Z.

(** A rotation: the rows are on three different axes (else the determinant is
    zero) and the determinant is one. *)
Definition is_rotation (m : cube_map) : bool := (det m =? 1)%Z.

(** The matrix maps the [z] axis to itself or to its opposite. *)
Definition keeps_z_axis (m : cube_map) : bool :=
  let '(_, _, r2) := m in
  match fst r2 with axis_z => true | _ => false end.

(** The rotation by a third of a turn about the diagonal:
    [(x, y, z) -> (z, x, y)]. *)
Definition cycle_axes : cube_map :=
  ((axis_z, false), (axis_x, false), (axis_y, false)).

(** The quarter turn about the [z] axis: [(x, y, z) -> (- y, x, z)]. *)
Definition quarter_turn_z : cube_map :=
  ((axis_y, true), (axis_x, false), (axis_z, false)).

(** The inversion [s -> - s] of every spin (not a rotation). *)
Definition inversion : cube_map :=
  ((axis_x, true), (axis_y, true), (axis_z, true)).

(** The spin vectors of a state, site by site. *)
Fixpoint zip3 (a b c : list float) : list vec3 :=
  match a, b, c with
  | u :: a', v :: b', w :: c' => (u, v, w) :: zip3 a' b' c'
  | _, _, _ => []
  end.

Definition spins (st : HeisenbergState.t) : list vec3 :=
  zip3 (HeisenbergState.x st) (HeisenbergState.y st) (HeisenbergState.z st).

Definition of_spins (vs : list vec3) : HeisenbergState.t :=
  HeisenbergState.make (map (fun v => fst (fst v)) vs)
                       (map (fun v => snd (fst v)) vs)
                       (map (fun v => snd v) vs).

(** The matrix applied to the spin vector of every site. *)
Definition rotate_state (m : cube_map) (data : SimulationData) : SimulationData :=
  {| state := of_spins (map (mat_apply m) (spins (state data)));
     lookup_tables := lookup_tables data;
     estimators := estimators data |}.

(** The energy of a spin vector at a site, read off the list of spin vectors
    instead of the three component arrays. *)
Definition energy_among_spins (tb : LookupTables) (vs : list vec3) (s : vec3) (i : Z)
  : result float :=
  match np_getitem_int64 (neighbors_count tb) i with
  | Ok count =>
      match np_getitem_int64 (neighbors_lookup_index tb) i with
      | Ok start =>
          match np_take vs (np_slice (neighbors_table tb) start
                                     (int64_add start count)) with
          | Ok ws =>
              match np_multiply
                      (np_slice (interaction_parameters_table tb) start
                                (int64_add start count))
                      (map (dot s) ws) with
              | Ok terms => Ok (np_sum terms)
              | Raise e => Raise e
              end
          | Raise e => Raise e
          end
      | Raise e => Raise e
      end
  | Raise e => Raise e
  end.

(** *** Sublattice sums *)

(** The sites whose [sublattice_table] entry equals [s], in increasing
    order. *)
Definition sublattice_sites (tb : LookupTables) (s : Z) : list nat :=
  filter (fun i => (nth i (sublattice_table tb) (-1) =? s)%Z)
         (seq 0 (length (sublattice_table tb))).

(** The sum of one component over exactly the sites of sublattice [s], as
    [np.sum] adds them. *)
Definition sublattice_component_sum (tb : LookupTables) (a : list float) (s : Z)
  : float :=
  np_sum (map (fun i => nth i a 0%float) (sublattice_sites tb s)).

Definition sublattice_sum (data : SimulationData) (s : Z) : vec3 :=
  let st := state data in
  let tb := lookup_tables data in
  (sublattice_component_sum tb (HeisenbergState.x st) s,
   sublattice_component_sum tb (HeisenbergState.y st) s,
   sublattice_component_sum tb (HeisenbergState.z st) s).

(** The body of the loop of [sum_spin_vectors_within_sublattices]. *)
Definition fill_sublattice_row (sublattice_indices : list Z)
           (sublattice : Z) (spin_vector : list vec3)
  : M SimulationData (list vec3) :=
  (sx <- gets (fun data => HeisenbergState.x (state data)) ;;
   gx <- lift (np_mask sx (np_equal sublattice_indices sublattice)) ;;
   sy <- gets (fun data => HeisenbergState.y (state data)) ;;
   gy <- lift (np_mask sy (np_equal sublattice_indices sublattice)) ;;
   sz <- gets (fun data => HeisenbergState.z (state data)) ;;
   gz <- lift (np_mask sz (np_equal sublattice_indices sublattice)) ;;
   lift (np_setitem spin_vector sublattice (np_sum gx, np_sum gy, np_sum gz)))%monad.

(** *** The generator *)

(** The generator after [n] more draws. *)
Definition advance (g : RandomState) (n : nat) : RandomState :=
  {| draws := draws g; cursor := cursor g + n |}.

(** The azimuth drawn for site [k], and the cosine of the polar angle drawn
    for site [k] of a state of [n] sites, from a generator at [g]:
    [2 pi (0 + (1 - 0) u)] and [-1 + (1 - -1) v] for the doubles [u] and [v]
    of the generator. *)
Definition azimuth (g : RandomState) (k : nat) : float :=
  (2 * np_pi * (0 + (1 - 0) * draws g (cursor g + k)%nat))%float.

Definition polar_cosine (g : RandomState) (n k : nat) : float :=
  (-1 + (1 - -1) * draws g (cursor g + n + k)%nat)%float.

(** A generator that always returns the same double. *)
Definition constant_generator (u : float) : RandomState :=
  {| draws := fun _ => u; cursor := O |}.

(** ** Sample lattices *)

Definition zero_estimators : Estimators :=
  {| energy := [0%float]; spin_vector := [(0, 0, 0)%float] |}.

(** Two sites joined by one bond of coupling [-1], both spins along [x]. *)
Definition two_site_tables : LookupTables :=
  {| number_sites := 2;
     number_sublattices := 2;
     sublattice_table := [0; 1]%Z;
     neighbors_count := [1; 1]%Z;
     neighbors_lookup_index := [0; 1]%Z;
     neighbors_table := [1; 0]%Z;
     interaction_parameters_table := [-1; -1]%float |}.

Definition two_site_data : SimulationData :=
  {| state := HeisenbergState.make [1; 1]%float [0; 0]%float [0; 0]%float;
     lookup_tables := two_site_tables;
     estimators := {| energy := [0%float];
                      spin_vector := [(0, 0, 0); (0, 0, 0)]%float |} |}.

(** An open chain of three sites, [0 - 1 - 2], with couplings [2^53] and
    [-1], on two sublattices (the ends and the middle); every spin is along
    [x]. *)
Definition chain_tables : LookupTables :=
  {| number_sites := 3;
     number_sublattices := 2;
     sublattice_table := [0; 1; 0]%Z;
     neighbors_count := [1; 2; 1]%Z;
     neighbors_lookup_index := [0; 1; 3]%Z;
     neighbors_table := [1; 0; 2; 1]%Z;
     interaction_parameters_table := [0x1p53; 0x1p53; -1; -1]%float |}.

Definition chain_data : SimulationData :=
  {| state := HeisenbergState.make [1; 1; 1]%float [0; 0; 0]%float [0; 0; 0]%float;
     lookup_tables := chain_tables;
     estimators := {| energy := [0%float];
                      spin_vector := [(0, 0, 0); (0, 0, 0)]%float |} |}.

(** A star: site 1 lists sites 0 and 2 with coupling [1], and the [x]
    components are [1], [2^53] and [1]; all three sites are on one
    sublattice.  Sites 0 and 2 list nothing. *)
Definition star_data : SimulationData :=
  {| state := HeisenbergState.make [0x1p53; 1; 1]%float [0; 0; 0]%float
                                   [0; 0; 0]%float;
     lookup_tables :=
       {| number_sites := 3;
          number_sublattices := 1;
          sublattice_table := [0; 0; 0]%Z;
          neighbors_count := [0; 2; 0]%Z;
          neighbors_lookup_index := [0; 0; 2]%Z;
          neighbors_table := [0; 2]%Z;
          interaction_parameters_table := [1; 1]%float |};
     estimators := zero_estimators |}.

(** Two bonded sites with the spins [(2^53, 1, -2^53)] and [(1, 1, 1)]. *)
Definition tilted_pair_data : SimulationData :=
  {| state := HeisenbergState.make [0x1p53; 1]%float [1; 1]%float
                                   [-0x1p53; 1]%float;
     lookup_tables :=
       {| number_sites := 2;
          number_sublattices := 1;
          sublattice_table := [0; 0]%Z;
          neighbors_count := [1; 1]%Z;
          neighbors_lookup_index := [0; 1]%Z;
          neighbors_table := [1; 0]%Z;
          interaction_parameters_table := [1; 1]%float |};
     estimators := zero_estimators |}.

(** One site that lists itself once, with coupling [1]. *)
Definition self_bond_data : SimulationData :=
  {| state := HeisenbergState.make [1]%float [0]%float [0]%float;
     lookup_tables :=
       {| number_sites := 1;
          number_sublattices := 1;
          sublattice_table := [0]%Z;
          neighbors_count := [1]%Z;
          neighbors_lookup_index := [0]%Z;
          neighbors_table := [0]%Z;
          interaction_parameters_table := [1]%float |};
     estimators := zero_estimators |}.

(** A periodic chain of one site: the site neighbors its own image on the left
    and on the right, so the single bond is listed from both of its ends. *)
Definition periodic_site_data : SimulationData :=
  {| state := HeisenbergState.make [1]%float [0]%float [0]%float;
     lookup_tables :=
       {| number_sites := 1;
          number_sublattices := 1;
          sublattice_table := [0]%Z;
          neighbors_count := [2]%Z;
          neighbors_lookup_index := [0]%Z;
          neighbors_table := [0; 0]%Z;
          interaction_parameters_table := [1; 1]%float |};
     estimators := zero_estimators |}.

(** The two-site lattice with a [sublattice_table] one entry short. *)
Definition ragged_data : SimulationData :=
  {| state := state two_site_data;
     lookup_tables :=
       {| number_sites := 2;
          number_sublattices := 2;
          sublattice_table := [0]%Z;
          neighbors_count := [1; 1]%Z;
          neighbors_lookup_index := [0; 1]%Z;
          neighbors_table := [1; 0]%Z;
          interaction_parameters_table := [-1; -1]%float |};
     estimators := estimators two_site_data |}.

(** Three sites, the middle one without neighbors, and an
    [interaction_parameters_table] of a single entry for the two neighbors
    that site 2 lists. *)
Definition misaligned_data : SimulationData :=
  {| state := HeisenbergState.make [1; 0; 1]%float [0; 1; 0]%float [0; 0; 0]%float;
     lookup_tables :=
       {| number_sites := 3;
          number_sublattices := 1;
          sublattice_table := [0; 0; 0]%Z;
          neighbors_count := [0; 0; 2]%Z;
          neighbors_lookup_index := [0; 0; 0]%Z;
          neighbors_table := [0; 1]%Z;
          interaction_parameters_table := [3]%float |};
     estimators := zero_estimators |}.

(** No site at all, and a leftover entry in [neighbors_table]. *)
Definition empty_data : SimulationData :=
  {| state := HeisenbergState.make [] [] [];
     lookup_tables :=
       {| number_sites := 0;
          number_sublattices := 0;
          sublattice_table := [];
          neighbors_count := [];
          neighbors_lookup_index := [];
          neighbors_table := [7]%Z;
          interaction_parameters_table := [] |};
     estimators := zero_estimators |}.

(** The two-site tables with a state of a single site. *)
Definition short_state_data : SimulationData :=
  {| state := HeisenbergState.make [1]%float [0]%float [0]%float;
     lookup_tables := two_site_tables;
     estimators := estimators two_site_data |}.

(** ** Reasoning about computations *)

Lemma read_only_ret {S A : Type} (a : A) : read_only (ret a : M S A).
Proof. intro s. reflexivity. Qed.

Lemma read_only_gets {S A : Type} (f : S -> A) : read_only (gets f).
Proof. intro s. reflexivity. Qed.

Lemma read_only_lift {S A : Type} (r : result A) : read_only (lift r : M S A).
Proof. intro s. reflexivity. Qed.

Lemma read_only_bind {S A B : Type} (m : M S A) (k : A -> M S B) :
  read_only m -> (forall a, read_only (k a)) -> read_only (bind m k).
Proof.
  intros Hm Hk s. unfold exec, bind.
  specialize (Hm s). unfold exec in Hm.
  destruct (m s) as [[a | e] s']; simpl in Hm; subst s'.
  - apply Hk.
  - reflexivity.
Qed.

Lemma read_only_for_each {S A B : Type} (l : list A) (body : A -> B -> M S B) :
  (forall a acc, read_only (body a acc)) ->
  forall acc, read_only (for_each l body acc).
Proof.
  intro Hbody. induction l as [| a l IH]; intro acc; simpl.
  - apply read_only_ret.
  - apply read_only_bind; [apply Hbody | intro acc'; apply IH].
Qed.

Create HintDb frame discriminated.
#[export] Hint Resolve read_only_ret read_only_gets read_only_lift : frame.
#[export] Hint Resolve read_only_bind read_only_for_each : frame.

(** A read-only computation is determined by its value. *)
Lemma read_only_run {S A : Type} (m : M S A) (s : S) :
  read_only m -> m s = (eval m s, s).
Proof.
  intro H. specialize (H s). unfold exec, eval in *.
  destruct (m s) as [r s']. simpl in *. now subst.
Qed.

Lemma bind_read_only {S A B : Type} (m : M S A) (k : A -> M S B) (s : S) :
  read_only m ->
  bind m k s = match eval m s with
               | Ok a => k a s
               | Raise e => (Raise e, s)
               end.
Proof.
  intro H. unfold bind. rewrite (read_only_run m s H). reflexivity.
Qed.

Lemma read_only_get_site_spin_vector (i : Z) : read_only (get_site_spin_vector i).
Proof. unfold get_site_spin_vector. auto 20 with frame. Qed.

Lemma read_only_lookup_neighbor_states (i : Z) :
  read_only (lookup_neighbor_states i).
Proof. unfold lookup_neighbor_states. auto 30 with frame. Qed.

Lemma read_only_compute_energy_of_spin_vector_at_site (s : vec3) (i : Z) :
  read_only (compute_energy_of_spin_vector_at_site s i).
Proof.
  unfold compute_energy_of_spin_vector_at_site.
  apply read_only_bind; [apply read_only_lookup_neighbor_states | auto with frame].
Qed.

Lemma read_only_compute_site_energy (i : Z) : read_only (compute_site_energy i).
Proof.
  unfold compute_site_energy.
  apply read_only_bind;
    [apply read_only_get_site_spin_vector
    | intro; apply read_only_compute_energy_of_spin_vector_at_site].
Qed.

Lemma read_only_compute_total_energy : read_only compute_total_energy.
Proof.
  unfold compute_total_energy.
  apply read_only_bind; [auto with frame |].
  intro n. apply read_only_bind; [| auto with frame].
  apply read_only_for_each. intros i acc.
  apply read_only_bind; [apply read_only_compute_site_energy | auto with frame].
Qed.

Lemma read_only_sum_spin_vectors_within_sublattices :
  read_only sum_spin_vectors_within_sublattices.
Proof.
  unfold sum_spin_vectors_within_sublattices.
  repeat (apply read_only_bind; [auto with frame | intro]).
  apply read_only_for_each. intros s acc. auto 30 with frame.
Qed.

#[export] Hint Resolve read_only_get_site_spin_vector
  read_only_lookup_neighbor_states
  read_only_compute_energy_of_spin_vector_at_site
  read_only_compute_site_energy read_only_compute_total_energy
  read_only_sum_spin_vectors_within_sublattices : frame.

(** ** The primitives on small arrays *)

Example np_getitem_counts_from_the_end : np_getitem [10; 20; 30]%Z (-1) = Ok 30%Z.
Proof. reflexivity. Qed.

Example np_getitem_refuses_the_length : np_getitem [10; 20; 30]%Z 3 = Raise IndexError.
Proof. reflexivity. Qed.

Example np_getitem_refuses_below : np_getitem [10; 20; 30]%Z (-4) = Raise IndexError.
Proof. reflexivity. Qed.

Example np_getitem_refuses_what_fits_no_c_long :
  np_getitem [10; 20; 30]%Z (2 ^ 63) = Raise OverflowError /\
  np_getitem [10; 20; 30]%Z (- 2 ^ 63) = Raise IndexError /\
  np_getitem [10; 20; 30]%Z (- 2 ^ 63 - 1) = Raise OverflowError.
Proof. repeat split; reflexivity. Qed.

Example int64_add_wraps_around :
  int64_add (2 ^ 63 - 1) 1 = (- 2 ^ 63)%Z /\ int64_add 3 4 = 7%Z.
Proof. split; reflexivity. Qed.

Example np_slice_is_clipped : np_slice [10; 20; 30]%Z 1 5 = [20; 30]%Z.
Proof. reflexivity. Qed.

Example np_slice_wraps_negatives : np_slice [10; 20; 30]%Z (-2) (-1) = [20]%Z.
Proof. reflexivity. Qed.

Example np_slice_backwards_is_empty : np_slice [10; 20; 30]%Z 2 1 = [].
Proof. reflexivity. Qed.

Example np_take_gathers : np_take [10; 20; 30]%Z [2; 0; -1]%Z = Ok [30; 10; 30]%Z.
Proof. reflexivity. Qed.

Example np_take_refuses : np_take [10; 20; 30]%Z [0; 3]%Z = Raise IndexError.
Proof. reflexivity. Qed.

Example np_mask_selects :
  np_mask [10; 20; 30]%Z (np_equal [0; 1; 0]%Z 0) = Ok [10; 30]%Z.
Proof. reflexivity. Qed.

Example np_mask_refuses_other_lengths :
  np_mask [10; 20; 30]%Z (np_equal [0; 1]%Z 0) = Raise IndexError.
Proof. reflexivity. Qed.

Example np_multiply_broadcasts :
  np_multiply [2]%float [1; 2; 3]%float = Ok [2; 4; 6]%float.
Proof. reflexivity. Qed.

Example np_multiply_refuses_other_lengths :
  np_multiply [1; 2]%float [1; 2; 3]%float = Raise ValueError.
Proof. reflexivity. Qed.

(** Every addition of [np.sum] is rounded: [2^53 + 1] is [2^53], so the order
    of the elements matters. *)
Example np_sum_rounds_every_addition :
  np_sum [0x1p53; 1; 1]%float = 0x1p53%float /\
  np_sum [1; 1; 0x1p53]%float = 0x1.0000000000001p53%float.
Proof. split; reflexivity. Qed.

(** From eight elements on the order of the additions is no longer from the
    left: the eight accumulators are added up in pairs. *)
Example np_sum_adds_long_arrays_in_pairs :
  np_sum [0x1p53; 1; 1; 0; 0; 0; 0; 0]%float = 0x1p53%float /\
  np_sum [0x1p53; 0; 1; 1; 0; 0; 0; 0]%float = 0x1.0000000000001p53%float.
Proof. split; reflexivity. Qed.

Example np_sum_of_nothing : np_sum [] = 0%float.
Proof. reflexivity. Qed.

Example range_of_negative_is_empty : range (-3) = [].
Proof. reflexivity. Qed.

Example range_counts_from_zero : range 3 = [0; 1; 2]%Z.
Proof. reflexivity. Qed.

Example two_site_neighbor_states :
  eval (lookup_neighbor_states 0) two_site_data =
  Ok (NeighborStates.make [1]%float [0]%float [0]%float [-1]%float).
Proof. reflexivity. Qed.

Example chain_neighbor_states :
  eval (lookup_neighbor_states 1) chain_data =
  Ok (NeighborStates.make [1; 1]%float [0; 0]%float [0; 0]%float
                          [0x1p53; -1]%float).
Proof. reflexivity. Qed.

Example sample_lattices_are_well_formed :
  wf_data two_site_data = true /\ wf_data chain_data = true /\
  wf_data star_data = true /\ wf_data tilted_pair_data = true.
Proof. repeat split; reflexivity. Qed.

Example periodic_site_entries :
  directed_bonds (lookup_tables periodic_site_data) =
  [(0%Z, 0%Z, 1%float); (0%Z, 0%Z, 1%float)].
Proof. reflexivity. Qed.

Example rotations_of_the_cube :
  is_rotation cycle_axes = true /\ is_rotation quarter_turn_z = true /\
  is_rotation inversion = false /\
  mat_apply cycle_axes (1, 2, 3)%float = (3, 1, 2)%float /\
  mat_apply quarter_turn_z (1, 2, 3)%float = (-2, 1, 3)%float.
Proof. repeat split; reflexivity. Qed.

(** ** Facts about binary64 arithmetic *)

Lemma float_mul_comm (u v : float) : (u * v = v * u)%float.
Proof.
  apply Prim2SF_inj. rewrite !mul_spec.
  destruct (Prim2SF u) as [su | su | | su mu eu],
           (Prim2SF v) as [sv | sv | | sv mv ev];
    try reflexivity; try (destruct su, sv; reflexivity).
  unfold SF64mul, SFmul. now rewrite Pos.mul_comm, Z.add_comm, xorb_comm.
Qed.

Lemma float_add_comm (u v : float) : (u + v = v + u)%float.
Proof.
  apply Prim2SF_inj. rewrite !add_spec.
  destruct (Prim2SF u) as [su | su | | su mu eu],
           (Prim2SF v) as [sv | sv | | sv mv ev];
    try reflexivity; try (destruct su, sv; reflexivity).
  unfold SF64add, SFadd. now rewrite Z.min_comm, Z.add_comm.
Qed.

(** Reversing both factors leaves a product as it is, whatever is rounded. *)
Lemma float_opp_mul_opp (u v : float) : ((- u) * (- v) = u * v)%float.
Proof.
  apply Prim2SF_inj. rewrite !mul_spec, !opp_spec.
  destruct (Prim2SF u) as [su | su | | su mu eu],
           (Prim2SF v) as [sv | sv | | sv mv ev];
    try reflexivity; destruct su, sv; reflexivity.
Qed.

Lemma dot_comm (u v : vec3) : dot u v = dot v u.
Proof.
  destruct u as [[u0 u1] u2], v as [[v0 v1] v2]. unfold dot.
  now rewrite (float_mul_comm u0), (float_mul_comm u1), (float_mul_comm u2).
Qed.

Lemma Ok_injective {A : Type} (a b : A) : Ok a = Ok b -> a = b.
Proof. intro H. now injection H. Qed.

(** Two doubles given by their digits are different; so are two results that
    hold them. *)
Ltac different_doubles H :=
  vm_compute in H; try apply Ok_injective in H;
  apply (f_equal Prim2SF) in H; vm_compute in H; discriminate H.

(** ** Facts about the numpy primitives *)

Lemma in_range_spec (len i : Z) : in_range len i = true <-> (0 <= i < len)%Z.
Proof. unfold in_range. rewrite andb_true_iff, Z.leb_le, Z.ltb_lt. tauto. Qed.

Lemma int64_fits (v : Z) : (- 2 ^ 63 <= v < 2 ^ 63)%Z -> int64 v = v.
Proof.
  intro H. unfold int64.
  rewrite Z.mod_small; lia.
Qed.

Lemma int64_add_fits (a b : Z) :
  (- 2 ^ 63 <= a + b < 2 ^ 63)%Z -> int64_add a b = (a + b)%Z.
Proof. apply int64_fits. Qed.

Lemma int64_range (v : Z) : (- 2 ^ 63 <= int64 v < 2 ^ 63)%Z.
Proof.
  unfold int64.
  pose proof (Z.mod_pos_bound (v + 2 ^ 63) (2 ^ 64)). lia.
Qed.

Lemma np_lookup_in_range {A : Type} (a : list A) (i : Z) (d : A) :
  in_range (np_len a) i = true -> np_lookup a i = Some (nth (Z.to_nat i) a d).
Proof.
  intro H. unfold np_lookup, np_wrap.
  pose proof (proj1 (in_range_spec _ _) H) as Hi.
  destruct (Z.ltb_spec i 0) as [Hneg | _]; [lia |].
  fold (in_range (np_len a) i). rewrite H.
  destruct (nth_error a (Z.to_nat i)) as [v |] eqn:E.
  - now rewrite (nth_error_nth _ _ d E).
  - apply nth_error_None in E. unfold np_len in Hi. lia.
Qed.

Lemma np_lookup_out_of_range {A : Type} (a : list A) (i : Z) :
  (i < - np_len a \/ np_len a <= i)%Z -> np_lookup a i = None.
Proof.
  intro H. unfold np_lookup, np_wrap.
  assert (0 <= np_len a)%Z by (unfold np_len; lia).
  destruct (Z.ltb_spec i 0).
  - destruct (Z.leb_spec 0 (i + np_len a)); [lia | reflexivity].
  - destruct (Z.leb_spec 0 i); [| reflexivity].
    destruct (Z.ltb_spec i (np_len a)); [lia | reflexivity].
Qed.

Lemma np_lookup_negative {A : Type} (a : list A) (i : Z) :
  (- np_len a <= i < 0)%Z -> np_lookup a i = np_lookup a (i + np_len a).
Proof.
  intro H. unfold np_lookup, np_wrap.
  destruct (Z.ltb_spec i 0); [| lia].
  destruct (Z.ltb_spec (i + np_len a) 0); [lia | reflexivity].
Qed.

Lemma np_lookup_valid {A : Type} (a : list A) (i : Z) :
  valid_index a i <-> exists v, np_lookup a i = Some v.
Proof.
  unfold valid_index. split.
  - intro H. destruct a as [| d a]; [unfold np_len in H; simpl in H; lia |].
    destruct (Z.ltb_spec i 0) as [Hneg | Hpos].
    + rewrite np_lookup_negative by lia.
      exists (nth (Z.to_nat (i + np_len (d :: a))) (d :: a) d).
      apply np_lookup_in_range, in_range_spec. lia.
    + exists (nth (Z.to_nat i) (d :: a) d).
      apply np_lookup_in_range, in_range_spec. lia.
  - intros [v Hv].
    destruct (Z_lt_dec i (- np_len a)) as [Hlo | Hlo];
      [rewrite np_lookup_out_of_range in Hv by lia; discriminate |].
    destruct (Z_le_dec (np_len a) i) as [Hhi | Hhi];
      [rewrite np_lookup_out_of_range in Hv by lia; discriminate |].
    lia.
Qed.

Lemma np_lookup_map {A B : Type} (f : A -> B) (a : list A) (i : Z) :
  np_lookup (map f a) i = option_map f (np_lookup a i).
Proof.
  unfold np_lookup, np_len. rewrite length_map.
  destruct (_ && _); [| reflexivity].
  now rewrite nth_error_map.
Qed.

Lemma np_getitem_in_range {A : Type} (a : list A) (i : Z) (d : A) :
  in_range (np_len a) i = true -> np_getitem a i = Ok (nth (Z.to_nat i) a d).
Proof. intro H. unfold np_getitem. now rewrite (np_lookup_in_range a i d H). Qed.


Lemma np_getitem_negative {A : Type} (a : list A) (i : Z) :
  (- np_len a <= i < 0)%Z -> np_getitem a i = np_getitem a (i + np_len a).
Proof.
  intro H. unfold np_getitem. rewrite <- np_lookup_negative by exact H.
  assert (Hv : valid_index a i) by (unfold valid_index; lia).
  apply np_lookup_valid in Hv. destruct Hv as [v ->]. reflexivity.
Qed.

Lemma np_getitem_valid {A : Type} (a : list A) (i : Z) :
  valid_index a i -> exists v, np_getitem a i = Ok v.
Proof.
  intro H. apply np_lookup_valid in H. destruct H as [v Hv].
  exists v. unfold np_getitem. now rewrite Hv.
Qed.

Lemma np_getitem_raises {A : Type} (a : list A) (i : Z) (e : exn) :
  np_getitem a i = Raise e -> e = index_failure i /\ ~ valid_index a i.
Proof.
  intro H. split.
  - unfold np_getitem in H. destruct (np_lookup a i); congruence.
  - intro Hv. destruct (np_getitem_valid a i Hv) as [v Hok]. congruence.
Qed.

Lemma np_getitem_returns {A : Type} (a : list A) (i : Z) (v : A) :
  np_getitem a i = Ok v -> valid_index a i.
Proof.
  intro H. apply np_lookup_valid. unfold np_getitem in H.
  destruct (np_lookup a i) as [w |]; [now exists w | discriminate].
Qed.

Lemma np_getitem_map {A B : Type} (f : A -> B) (a : list A) (i : Z) :
  np_getitem (map f a) i =
  match np_getitem a i with Ok v => Ok (f v) | Raise e => Raise e end.
Proof.
  unfold np_getitem. rewrite np_lookup_map. now destruct (np_lookup a i).
Qed.

Lemma np_getitem_int64_in_range (a : list Z) (i : Z) :
  in_range (np_len a) i = true ->
  (- 2 ^ 63 <= nth (Z.to_nat i) a 0 < 2 ^ 63)%Z ->
  np_getitem_int64 a i = Ok (nth (Z.to_nat i) a 0%Z).
Proof.
  intros H Hfits. unfold np_getitem_int64.
  now rewrite (np_getitem_in_range a i 0%Z H), int64_fits.
Qed.

Lemma np_getitem_int64_negative (a : list Z) (i : Z) :
  (- np_len a <= i < 0)%Z ->
  np_getitem_int64 a i = np_getitem_int64 a (i + np_len a).
Proof. intro H. unfold np_getitem_int64. now rewrite np_getitem_negative. Qed.

Lemma np_getitem_int64_raises (a : list Z) (i : Z) (e : exn) :
  np_getitem_int64 a i = Raise e -> e = index_failure i /\ ~ valid_index a i.
Proof.
  unfold np_getitem_int64. intro H.
  destruct (np_getitem a i) as [v | e'] eqn:E; [discriminate |].
  injection H as <-. now apply np_getitem_raises.
Qed.

Lemma firstn_skipn_seq {A : Type} (d : A) (a : list A) (lo n : nat) :
  (lo + n <= length a)%nat ->
  firstn n (skipn lo a) = map (fun k => nth k a d) (seq lo n).
Proof.
  revert lo n. induction a as [| v a IH]; intros lo n H.
  - simpl in H. assert (lo = O) by lia. assert (n = O) by lia. now subst.
  - destruct lo as [| lo].
    + destruct n as [| n]; [reflexivity |].
      simpl. f_equal.
      rewrite <- seq_shift, map_map.
      specialize (IH O n). simpl in IH. apply IH. simpl in H. lia.
    + simpl skipn. rewrite <- seq_shift, map_map. simpl.
      apply IH. simpl in H. lia.
Qed.

Lemma np_slice_block {A : Type} (d : A) (a : list A) (start count : Z) :
  (0 <= start)%Z -> (0 <= count)%Z -> (start + count <= np_len a)%Z ->
  np_slice a start (start + count) =
  map (fun k => nth k a d) (seq (Z.to_nat start) (Z.to_nat count)).
Proof.
  intros Hs Hc Hlen. unfold np_slice, np_clip, np_wrap.
  destruct (Z.ltb_spec start 0); [lia |].
  destruct (Z.ltb_spec (start + count) 0); [lia |].
  rewrite (Z.min_r _ start) by lia.
  rewrite (Z.min_r _ (start + count)) by lia.
  rewrite !Z.max_r by lia.
  replace (start + count - start)%Z with count by lia.
  apply firstn_skipn_seq. unfold np_len in Hlen. lia.
Qed.

Lemma traverse_map_ok {A B C : Type} (f : A -> result B) (g : C -> A) (h : C -> B)
      (l : list C) :
  (forall c, In c l -> f (g c) = Ok (h c)) ->
  traverse f (map g l) = Ok (map h l).
Proof.
  induction l as [| c l IH]; intro H; simpl; [reflexivity |].
  rewrite (H c) by now left.
  rewrite IH by (intros; apply H; now right). reflexivity.
Qed.

Lemma traverse_ok {A B : Type} (f : A -> result B) (h : A -> B) (l : list A) :
  (forall a, In a l -> f a = Ok (h a)) -> traverse f l = Ok (map h l).
Proof.
  intro H. rewrite <- (map_id l) at 1. now apply traverse_map_ok.
Qed.

Lemma traverse_ext {A B : Type} (f g : A -> result B) (l : list A) :
  (forall a, In a l -> f a = g a) -> traverse f l = traverse g l.
Proof.
  induction l as [| a l IH]; intro H; simpl; [reflexivity |].
  rewrite (H a) by now left.
  rewrite IH by (intros; apply H; now right). reflexivity.
Qed.

Lemma traverse_length {A B : Type} (f : A -> result B) (l : list A) (l' : list B) :
  traverse f l = Ok l' -> length l' = length l.
Proof.
  revert l'. induction l as [| a l IH]; intros l' H; simpl in H.
  - injection H as <-. reflexivity.
  - destruct (f a) as [b | e]; [| discriminate].
    destruct (traverse f l) as [bs | e]; [| discriminate].
    injection H as <-. simpl. now rewrite (IH bs).
Qed.

Lemma traverse_raises_somewhere {A B : Type} (f : A -> result B) (l : list A)
      (e : exn) :
  traverse f l = Raise e -> exists a, In a l /\ f a = Raise e.
Proof.
  induction l as [| a l IH]; simpl; [discriminate |].
  destruct (f a) as [b | e'] eqn:E.
  - destruct (traverse f l) as [bs | e'']; [discriminate |].
    intro H. injection H as <-. destruct (IH eq_refl) as (a' & Hin & Ha').
    exists a'. now split; [right |].
  - intro H. injection H as <-. exists a. now split; [left |].
Qed.

Lemma np_take_in_range {A C : Type} (a : list A) (d : A) (g : C -> Z) (l : list C) :
  (forall c, In c l -> in_range (np_len a) (g c) = true) ->
  np_take a (map g l) = Ok (map (fun c => nth (Z.to_nat (g c)) a d) l).
Proof.
  intro H. unfold np_take. apply traverse_map_ok.
  intros c Hc. now rewrite (np_lookup_in_range a (g c) d (H c Hc)).
Qed.

Lemma np_take_map {A B : Type} (f : A -> B) (a : list A) (idx : list Z) :
  np_take (map f a) idx =
  match np_take a idx with Ok vs => Ok (map f vs) | Raise e => Raise e end.
Proof.
  unfold np_take. induction idx as [| i idx IH]; simpl; [reflexivity |].
  rewrite np_lookup_map. destruct (np_lookup a i); [| reflexivity].
  simpl. rewrite IH.
  match goal with
  | |- context [traverse ?g idx] => destruct (traverse g idx)
  end; reflexivity.
Qed.

Lemma np_take_raises {A : Type} (a : list A) (idx : list Z) (e : exn) :
  np_take a idx = Raise e -> e = IndexError.
Proof.
  unfold np_take. intro H.
  destruct (traverse_raises_somewhere _ _ _ H) as (j & _ & Hj).
  destruct (np_lookup a j); congruence.
Qed.

Lemma np_binop_map {C : Type} (f : float -> float -> float) (g h : C -> float)
      (l : list C) :
  np_binop f (map g l) (map h l) = Ok (map (fun c => f (g c) (h c)) l).
Proof.
  unfold np_binop. rewrite !length_map, Nat.eqb_refl. f_equal.
  induction l as [| c l IH]; simpl; [reflexivity | now rewrite IH].
Qed.

Lemma np_scale_map {C : Type} (s : float) (g : C -> float) (l : list C) :
  np_scale s (map g l) = map (fun c => (s * g c)%float) l.
Proof. unfold np_scale. now rewrite map_map. Qed.

Lemma range_spec (n i : Z) : In i (range n) <-> (0 <= i < n)%Z.
Proof.
  unfold range. rewrite in_map_iff. split.
  - intros [k [<- Hk]]. apply in_seq in Hk. lia.
  - intro H. exists (Z.to_nat i). split; [lia |]. apply in_seq. lia.
Qed.

Lemma range_NoDup (n : Z) : NoDup (range n).
Proof.
  unfold range. apply Finite.Injective_map_NoDup.
  - intros a b H. lia.
  - apply seq_NoDup.
Qed.

(** *** The depth of the pairwise summation *)

(** The length of the array is depth enough: more changes nothing. *)
Lemma pairwise_sum_rec_depth (d d' : nat) (a : list float) :
  (length a <= d)%nat -> (length a <= d')%nat ->
  pairwise_sum_rec d a = pairwise_sum_rec d' a.
Proof.
  revert d' a. induction d as [| d IH]; intros d' a Hd Hd'.
  - destruct a; [| simpl in Hd; lia]. now destruct d'.
  - destruct d' as [| d'].
    + destruct a; [reflexivity | simpl in Hd'; lia].
    + cbn [pairwise_sum_rec].
      destruct (Nat.ltb_spec (length a) 8) as [| H8]; [reflexivity |].
      destruct (Nat.leb_spec (length a) 128) as [| H128]; [reflexivity |].
      set (n2 := (length a / 2 - (length a / 2) mod 8)%nat).
      assert (Hn2 : (0 < n2 < length a)%nat).
      { unfold n2.
        pose proof (Nat.div_mod_eq (length a) 2) as Hdiv.
        pose proof (Nat.mod_upper_bound (length a) 2) as Hrem.
        pose proof (Nat.mod_upper_bound (length a / 2) 8) as Hmod.
        lia. }
      f_equal; apply IH;
        rewrite ?length_firstn, ?length_skipn; lia.
Qed.

Lemma pairwise_sum_depth (d : nat) (a : list float) :
  (length a <= d)%nat -> pairwise_sum_rec d a = pairwise_sum a.
Proof. intro H. unfold pairwise_sum. now apply pairwise_sum_rec_depth. Qed.

(** Fewer than eight elements are added from the left. *)
Lemma np_sum_short (a : list float) :
  (length a < 8)%nat -> np_sum a = (0 + add_from_left 0 a)%float.
Proof.
  intro H. unfold np_sum, pairwise_sum.
  destruct a as [| u a]; [reflexivity |].
  cbn [pairwise_sum_rec length].
  destruct (Nat.ltb_spec (S (length a)) 8) as [| H8]; [reflexivity | simpl in H; lia].
Qed.

(** ** The energy of one site *)

Section SiteEnergy.

Variable data : SimulationData.
Variable i : Z.
Hypothesis Hwf : wf_site data i = true.

Let st := state data.
Let tb := lookup_tables data.
Let ks := block_positions tb i.
Let nbr (k : nat) : Z := nth k (neighbors_table tb) 0%Z.
Let start := nth (Z.to_nat i) (neighbors_lookup_index tb) 0%Z.
Let count := nth (Z.to_nat i) (neighbors_count tb) 0%Z.

Lemma wf_site_index :
  in_range (np_len (HeisenbergState.x st)) i = true /\
  in_range (np_len (HeisenbergState.y st)) i = true /\
  in_range (np_len (HeisenbergState.z st)) i = true /\
  in_range (np_len (neighbors_count tb)) i = true /\
  in_range (np_len (neighbors_lookup_index tb)) i = true.
Proof.
  pose proof Hwf as H. unfold wf_site in H. fold st tb in H.
  rewrite !andb_true_iff in H. tauto.
Qed.

Lemma wf_site_block :
  (0 <= start)%Z /\ (0 <= count)%Z /\ (start + count < 2 ^ 63)%Z /\
  (start + count <= np_len (neighbors_table tb))%Z /\
  (start + count <= np_len (interaction_parameters_table tb))%Z.
Proof.
  pose proof Hwf as H. unfold wf_site in H. fold st tb start count in H.
  rewrite !andb_true_iff in H.
  destruct H as ((((((_ & Hs) & Hc) & Hfit) & Hl1) & Hl2) & _).
  apply Z.leb_le in Hs, Hc, Hl1, Hl2. apply Z.ltb_lt in Hfit. tauto.
Qed.

Lemma wf_site_neighbors (k : nat) :
  In k ks ->
  in_range (np_len (HeisenbergState.x st)) (nbr k) = true /\
  in_range (np_len (HeisenbergState.y st)) (nbr k) = true /\
  in_range (np_len (HeisenbergState.z st)) (nbr k) = true.
Proof.
  intro Hk. pose proof Hwf as H. unfold wf_site in H. fold st tb in H.
  apply andb_prop in H. destruct H as [_ Hall].
  rewrite forallb_forall in Hall.
  specialize (Hall (nbr k, nth k (interaction_parameters_table tb) 0%float)).
  simpl in Hall.
  assert (Hin : In (nbr k, nth k (interaction_parameters_table tb) 0%float)
                   (listed_neighbors tb i)).
  { unfold listed_neighbors. apply in_map_iff. exists k. split; [reflexivity | exact Hk]. }
  specialize (Hall Hin). rewrite !andb_true_iff in Hall. tauto.
Qed.

Lemma get_site_spin_vector_wf :
  get_site_spin_vector i data = (Ok (spin_at st i), data).
Proof.
  destruct wf_site_index as (Hx & Hy & Hz & _).
  unfold get_site_spin_vector, bind, gets, lift, ret. fold st.
  rewrite (np_getitem_in_range _ _ 0%float Hx).
  rewrite (np_getitem_in_range _ _ 0%float Hy).
  rewrite (np_getitem_in_range _ _ 0%float Hz).
  reflexivity.
Qed.

Lemma lookup_neighbor_states_wf :
  lookup_neighbor_states i data =
  (Ok (NeighborStates.make
         (map (fun k => nth (Z.to_nat (nbr k)) (HeisenbergState.x st) 0%float) ks)
         (map (fun k => nth (Z.to_nat (nbr k)) (HeisenbergState.y st) 0%float) ks)
         (map (fun k => nth (Z.to_nat (nbr k)) (HeisenbergState.z st) 0%float) ks)
         (map (fun k => nth k (interaction_parameters_table tb) 0%float) ks)),
   data).
Proof.
  destruct wf_site_index as (_ & _ & _ & Hc & Ho).
  destruct wf_site_block as (Hstart & Hcount & Hfit & Hlen1 & Hlen2).
  unfold lookup_neighbor_states, bind, gets, lift, ret. fold st tb.
  rewrite (np_getitem_int64_in_range _ _ Hc) by (fold count; lia).
  rewrite (np_getitem_int64_in_range _ _ Ho) by (fold start; lia).
  fold start count. rewrite int64_add_fits by lia.
  rewrite (np_slice_block 0%Z _ _ _ Hstart Hcount Hlen1).
  rewrite (np_slice_block 0%float _ _ _ Hstart Hcount Hlen2).
  fold (block_positions tb i). fold ks.
  rewrite (np_take_in_range (HeisenbergState.x st) 0%float
             (fun k => nth k (neighbors_table tb) 0%Z))
    by (intros k Hk; now apply wf_site_neighbors).
  rewrite (np_take_in_range (HeisenbergState.y st) 0%float
             (fun k => nth k (neighbors_table tb) 0%Z))
    by (intros k Hk; now apply wf_site_neighbors).
  rewrite (np_take_in_range (HeisenbergState.z st) 0%float
             (fun k => nth k (neighbors_table tb) 0%Z))
    by (intros k Hk; now apply wf_site_neighbors).
  reflexivity.
Qed.

Lemma compute_energy_of_spin_vector_at_site_wf (s : vec3) :
  compute_energy_of_spin_vector_at_site s i data =
  (Ok (np_sum (neighbor_terms st tb s i)), data).
Proof.
  unfold compute_energy_of_spin_vector_at_site, bind.
  rewrite lookup_neighbor_states_wf. unfold lift. f_equal.
  destruct s as [[s0 s1] s2]. unfold weighted_alignment. simpl.
  rewrite !np_scale_map. unfold np_add, np_multiply.
  rewrite np_binop_map. rewrite np_binop_map. rewrite np_binop_map.
  do 2 f_equal. unfold neighbor_terms, listed_neighbors. fold ks.
  now rewrite map_map.
Qed.

Lemma compute_site_energy_wf :
  compute_site_energy i data = (Ok (np_sum (site_terms data i)), data).
Proof.
  unfold compute_site_energy, bind. rewrite get_site_spin_vector_wf.
  rewrite compute_energy_of_spin_vector_at_site_wf. do 2 f_equal.
  unfold site_terms, site_bonds, neighbor_terms. fold st tb.
  now rewrite map_map.
Qed.

End SiteEnergy.

(** ** The total energy *)

(** The accumulation loop of [compute_total_energy], from any starting value. *)
Lemma accumulate_site_energies (data : SimulationData) (l : list Z) (acc : float) :
  for_each l
    (fun site_index total_energy =>
       e <- compute_site_energy site_index ;; ret (total_energy + e)%float)
    acc data
  = (match traverse (fun i => eval (compute_site_energy i) data) l with
     | Ok es => Ok (add_from_left acc es)
     | Raise e => Raise e
     end, data).
Proof.
  revert acc. induction l as [| a l IH]; intro acc; simpl.
  - reflexivity.
  - unfold bind at 1.
    rewrite (bind_read_only _ _ _ (read_only_compute_site_energy a)).
    destruct (eval (compute_site_energy a) data) as [e | err]; [| reflexivity].
    unfold ret at 1. rewrite IH.
    now destruct (traverse _ l) as [es | err].
Qed.

Lemma compute_total_energy_half_sum (data : SimulationData) :
  compute_total_energy data = (half_sum_of_site_energies data, data).
Proof.
  unfold compute_total_energy, half_sum_of_site_energies.
  unfold bind at 1, gets at 1. unfold bind at 1.
  rewrite accumulate_site_energies.
  now destruct (traverse _ _) as [es | err].
Qed.

Lemma wf_data_site (data : SimulationData) (i : Z) :
  wf_data data = true ->
  (0 <= i < number_sites (lookup_tables data))%Z ->
  wf_site data i = true.
Proof.
  unfold wf_data. rewrite forallb_forall. intros H Hi.
  apply H. now apply range_spec.
Qed.

Lemma compute_total_energy_wf (data : SimulationData) :
  wf_data data = true ->
  compute_total_energy data =
  (Ok (total_of_terms (map (site_terms data)
                           (range (number_sites (lookup_tables data))))), data).
Proof.
  intro Hwf. rewrite compute_total_energy_half_sum. f_equal.
  unfold half_sum_of_site_energies.
  rewrite (traverse_ok _ (fun i => np_sum (site_terms data i))).
  2:{ intros i Hi. apply range_spec in Hi. unfold eval.
      now rewrite (compute_site_energy_wf _ _ (wf_data_site _ _ Hwf Hi)). }
  unfold total_of_terms. now rewrite map_map.
Qed.

(** The doubles that enter the total energy are those of the sites, one site
    after the other. *)
Lemma energy_terms_by_site (data : SimulationData) :
  energy_terms data =
  concat (map (site_terms data) (range (number_sites (lookup_tables data)))).
Proof.
  unfold energy_terms, directed_bonds, site_terms.
  rewrite flat_map_concat_map, concat_map. now rewrite map_map.
Qed.

(** ** Symmetric tables *)

Lemma bond_energy_swap (st : HeisenbergState.t) (b : bond) :
  bond_energy st (swap_bond b) = bond_energy st b.
Proof.
  destruct b as [[i j] J]. unfold swap_bond, bond_energy.
  now rewrite dot_comm.
Qed.

Lemma swap_bond_involutive (b : bond) : swap_bond (swap_bond b) = b.
Proof. now destruct b as [[i j] J]. Qed.

Lemma swap_bond_injective (b c : bond) : swap_bond b = swap_bond c -> b = c.
Proof.
  intro H. rewrite <- (swap_bond_involutive b), <- (swap_bond_involutive c).
  now rewrite H.
Qed.

Lemma mirrored_bonds_have_the_same_terms (st : HeisenbergState.t) (bonds : list bond) :
  map (bond_energy st) (map swap_bond bonds) = map (bond_energy st) bonds.
Proof.
  rewrite map_map. apply map_ext. intro b. apply bond_energy_swap.
Qed.

Lemma records_each_bond_twice_counted (tb : LookupTables) (bonds : list bond) :
  records_each_bond_twice tb bonds -> bond_symmetric_counted tb.
Proof.
  unfold records_each_bond_twice, bond_symmetric_counted. intro H.
  transitivity (bonds ++ map swap_bond bonds); [exact H |].
  symmetry. transitivity (map swap_bond (bonds ++ map swap_bond bonds)).
  - now apply Permutation_map.
  - rewrite map_app, map_map.
    rewrite (map_ext _ (fun b => b) swap_bond_involutive), map_id.
    apply Permutation_app_comm.
Qed.

(** Tables that record every bond from both ends make the sites add up the
    double of every bond twice. *)
Lemma energy_terms_of_recorded_bonds (data : SimulationData) (bonds : list bond) :
  records_each_bond_twice (lookup_tables data) bonds ->
  Permutation (energy_terms data)
              (map (bond_energy (state data)) bonds
               ++ map (bond_energy (state data)) bonds).
Proof.
  intro H. unfold energy_terms.
  rewrite <- (mirrored_bonds_have_the_same_terms (state data) bonds) at 2.
  rewrite <- map_app. now apply Permutation_map.
Qed.

Lemma directed_bonds_spec (tb : LookupTables) (a j : Z) (J : float) :
  lists tb a j J <->
  (0 <= a < number_sites tb)%Z /\ In (j, J) (listed_neighbors tb a).
Proof.
  unfold lists, directed_bonds, site_bonds. rewrite in_flat_map. split.
  - intros [i [Hi Hin]]. apply in_map_iff in Hin.
    destruct Hin as [[j' J'] [Heq Hin]]. simpl in Heq.
    injection Heq as -> -> ->. apply range_spec in Hi. now split.
  - intros [Ha Hin]. exists a. split; [now apply range_spec |].
    apply in_map_iff. now exists (j, J).
Qed.

Lemma listed_neighbor_nonneg (data : SimulationData) (a j : Z) (J : float) :
  wf_data data = true -> lists (lookup_tables data) a j J -> (0 <= a /\ 0 <= j)%Z.
Proof.
  intros Hwf H. apply directed_bonds_spec in H. destruct H as [Ha Hin].
  split; [lia |].
  pose proof (wf_data_site data a Hwf Ha) as Hs. unfold wf_site in Hs.
  apply andb_prop in Hs. destruct Hs as [_ Hall].
  rewrite forallb_forall in Hall. specialize (Hall _ Hin). simpl in Hall.
  rewrite !andb_true_iff in Hall. destruct Hall as [[Hx _] _].
  apply in_range_spec in Hx. lia.
Qed.

(** *** Tables without repeated entries and without self-listing *)

(** The entries split into those listed from the lower endpoint and the
    others. *)
Lemma split_by_orientation (entries : list bond) :
  Permutation
    (filter listed_from_lower entries
     ++ filter (fun b => negb (listed_from_lower b)) entries)
    entries.
Proof.
  induction entries as [| b entries IH]; cbn [filter].
  - apply perm_nil.
  - destruct (listed_from_lower b); cbn [negb app].
    + apply perm_skip, IH.
    + symmetry. apply Permutation_cons_app. now symmetry.
Qed.

Lemma permutation_filter_bonds (f : bond -> bool) (l l' : list bond) :
  Permutation l l' -> Permutation (filter f l) (filter f l').
Proof.
  induction 1 as [| b l l' _ IH | b c l | l l' l'' _ IH1 _ IH2]; cbn [filter].
  - apply perm_nil.
  - destruct (f b); [apply perm_skip |]; exact IH.
  - destruct (f b), (f c); try apply Permutation_refl. apply perm_swap.
  - exact (perm_trans IH1 IH2).
Qed.

(** Without self-listing, the entries listed from the lower endpoint are the
    bonds and the others are their mirror images. *)
Lemma lower_bonds_record_each_bond (tb : LookupTables) :
  bond_symmetric_counted tb ->
  (forall i, no_self_listing tb i) ->
  records_each_bond_twice tb (lower_bonds tb).
Proof.
  intros Hsym Hself. unfold records_each_bond_twice, lower_bonds.
  etransitivity; [symmetry; apply split_by_orientation |].
  apply Permutation_app_head.
  etransitivity;
    [apply (permutation_filter_bonds (fun b => negb (listed_from_lower b)) _ _ Hsym) |].
  rewrite filter_map_swap. apply Permutation_map.
  rewrite (filter_ext_in (fun b => negb (listed_from_lower (swap_bond b)))
                         listed_from_lower); [apply Permutation_refl |].
  intros [[a b] J] Hin. unfold listed_from_lower, swap_bond. cbn [fst snd].
  destruct (Z.leb_spec b a) as [Hba | Hba]; destruct (Z.leb_spec a b) as [Hab | Hab];
    cbn [negb]; try reflexivity; try lia.
  exfalso. assert (a = b) by lia. subst b. exact (Hself a J Hin).
Qed.

(** For tables that repeat no entry the invariant of the specification is the
    invariant counted with multiplicity. *)
Lemma bond_symmetric_no_repetition (tb : LookupTables) :
  bond_symmetric tb -> NoDup (directed_bonds tb) -> bond_symmetric_counted tb.
Proof.
  intros Hsym Hnd. apply NoDup_Permutation.
  - exact Hnd.
  - apply Finite.Injective_map_NoDup; [| exact Hnd].
    intros b c. apply swap_bond_injective.
  - intros [[a b] J]. rewrite in_map_iff. split.
    + intro Hin. exists (b, a, J). split; [reflexivity | now apply Hsym].
    + intros [[[a' b'] J'] [Heq Hin]]. cbn [swap_bond] in Heq.
      injection Heq as -> -> ->. now apply Hsym.
Qed.

(** ** Replacing the spin of one site *)

Lemma length_replace_nth {A : Type} (n : nat) (v : A) (a : list A) :
  length (replace_nth n v a) = length a.
Proof.
  revert n. induction a as [| w a IH]; intros [| n]; simpl; auto.
Qed.

Lemma nth_replace_nth {A : Type} (n k : nat) (v d : A) (a : list A) :
  (n < length a)%nat ->
  nth k (replace_nth n v a) d = if (k =? n)%nat then v else nth k a d.
Proof.
  revert n k. induction a as [| w a IH]; intros n k H; simpl in H; [lia |].
  destruct n as [| n], k as [| k]; simpl; try reflexivity.
  apply IH. lia.
Qed.

Lemma np_len_replace_nth {A : Type} (n : nat) (v : A) (a : list A) :
  np_len (replace_nth n v a) = np_len a.
Proof. unfold np_len. now rewrite length_replace_nth. Qed.

Lemma wf_site_write_site (data : SimulationData) (i a : Z) (s : vec3) :
  wf_site (write_site i s data) a = wf_site data a.
Proof.
  destruct s as [[s0 s1] s2]. unfold wf_site, write_site. simpl.
  now rewrite !np_len_replace_nth.
Qed.

Lemma lookup_tables_write_site (data : SimulationData) (i : Z) (s : vec3) :
  lookup_tables (write_site i s data) = lookup_tables data.
Proof. now destruct s as [[s0 s1] s2]. Qed.

Lemma wf_data_write_site (data : SimulationData) (i : Z) (s : vec3) :
  wf_data (write_site i s data) = wf_data data.
Proof.
  unfold wf_data. rewrite lookup_tables_write_site.
  induction (range _) as [| a l IH]; cbn [forallb]; [reflexivity |].
  now rewrite IH, wf_site_write_site.
Qed.

Lemma spin_at_write_site (data : SimulationData) (i a : Z) (s : vec3) :
  wf_site data i = true -> (0 <= a)%Z ->
  spin_at (state (write_site i s data)) a =
  if (a =? i)%Z then s else spin_at (state data) a.
Proof.
  intros Hwf Ha.
  destruct (wf_site_index data i Hwf) as (Hx & Hy & Hz & _).
  apply in_range_spec in Hx, Hy, Hz. unfold np_len in *.
  destruct s as [[s0 s1] s2]. unfold spin_at, write_site. simpl.
  rewrite !nth_replace_nth by lia.
  destruct (Z.eqb_spec a i) as [-> | Hne].
  - now rewrite Nat.eqb_refl.
  - destruct (Nat.eqb_spec (Z.to_nat a) (Z.to_nat i)); [lia | reflexivity].
Qed.

(** *** The entries of the tables around one site *)

Lemma split_around_site (i : Z) (entries : list bond) :
  Permutation entries
    (filter (listed_by i) entries
     ++ filter (lists_site i) entries
     ++ filter (away_from i) entries).
Proof.
  induction entries as [| b entries IH]; cbn [filter]; [apply perm_nil |].
  unfold listed_by at 1, lists_site at 1, away_from at 1.
  destruct (fst (fst b) =? i)%Z; cbn [negb andb app].
  - now apply perm_skip.
  - destruct (snd (fst b) =? i)%Z; cbn [negb].
    + now apply Permutation_cons_app.
    + rewrite app_assoc. apply Permutation_cons_app.
      now rewrite <- app_assoc.
Qed.

Lemma filter_listed_by_site_bonds (tb : LookupTables) (i a : Z) :
  filter (listed_by i) (site_bonds tb a) =
  if (a =? i)%Z then site_bonds tb a else [].
Proof.
  unfold site_bonds. induction (listed_neighbors tb a) as [| nb l IH];
    cbn [map filter]; [now destruct (a =? i)%Z |].
  unfold listed_by at 1. cbn [fst]. rewrite IH.
  now destruct (a =? i)%Z.
Qed.

(** The entries a site lists are its block. *)
Lemma filter_listed_by_directed_bonds (tb : LookupTables) (i : Z) :
  (0 <= i < number_sites tb)%Z ->
  filter (listed_by i) (directed_bonds tb) = site_bonds tb i.
Proof.
  intro Hi. unfold directed_bonds.
  assert (Hin : In i (range (number_sites tb))) by now apply range_spec.
  pose proof (range_NoDup (number_sites tb)) as Hnd.
  induction (range (number_sites tb)) as [| a l IH]; [contradiction |].
  cbn [flat_map]. rewrite filter_app, filter_listed_by_site_bonds.
  inversion Hnd as [| ? ? Hnotin Hnd']; subst.
  assert (Hnone : forall l', ~ In i l' ->
            filter (listed_by i) (flat_map (site_bonds tb) l') = []).
  { clear. induction l' as [| a l' IH]; intro H; [reflexivity |].
    cbn [flat_map]. rewrite filter_app, filter_listed_by_site_bonds.
    destruct (Z.eqb_spec a i) as [-> | _]; [exfalso; apply H; now left |].
    apply IH. intro Hin. apply H. now right. }
  destruct Hin as [-> | Hin].
  - rewrite Z.eqb_refl, (Hnone l Hnotin). apply app_nil_r.
  - destruct (Z.eqb_spec a i) as [-> | _]; [contradiction |].
    now apply IH.
Qed.

(** In symmetric tables the entries that list a site are the mirror images
    of the entries the site lists, when it does not list itself. *)
Lemma mirror_of_the_block (tb : LookupTables) (i : Z) :
  bond_symmetric_counted tb ->
  no_self_listing tb i ->
  Permutation (filter (lists_site i) (directed_bonds tb))
              (map swap_bond (filter (listed_by i) (directed_bonds tb))).
Proof.
  intros Hsym Hself.
  etransitivity; [apply (permutation_filter_bonds (lists_site i) _ _ Hsym) |].
  rewrite filter_map_swap. apply Permutation_map.
  rewrite (filter_ext_in (fun b => lists_site i (swap_bond b)) (listed_by i));
    [apply Permutation_refl |].
  intros [[a j] J] Hin. unfold lists_site, listed_by, swap_bond. cbn [fst snd].
  destruct (Z.eqb_spec a i) as [-> | _]; destruct (Z.eqb_spec j i) as [-> | _];
    try reflexivity.
  exfalso. exact (Hself J Hin).
Qed.

(** Whatever the state, the doubles that enter the total energy are those of
    the bonds of site [i], twice, and those of the entries away from it. *)
Lemma energy_terms_around_site (st : HeisenbergState.t) (tb : LookupTables) (i : Z) :
  bond_symmetric_counted tb ->
  (0 <= i < number_sites tb)%Z ->
  no_self_listing tb i ->
  Permutation
    (map (bond_energy st) (directed_bonds tb))
    (map (bond_energy st) (site_bonds tb i)
     ++ map (bond_energy st) (site_bonds tb i)
     ++ map (bond_energy st) (filter (away_from i) (directed_bonds tb))).
Proof.
  intros Hsym Hi Hself.
  etransitivity;
    [apply Permutation_map, (split_around_site i (directed_bonds tb)) |].
  rewrite !map_app, (filter_listed_by_directed_bonds tb i Hi).
  apply Permutation_app_head, Permutation_app_tail.
  rewrite <- (mirrored_bonds_have_the_same_terms st (site_bonds tb i)).
  apply Permutation_map.
  rewrite <- (filter_listed_by_directed_bonds tb i Hi).
  now apply mirror_of_the_block.
Qed.

(** The doubles of the bonds of the rewritten site are those of the candidate
    spin vector; the doubles of the entries away from the site stay. *)
Lemma site_terms_write_site (data : SimulationData) (i : Z) (s : vec3) :
  wf_data data = true ->
  (0 <= i < number_sites (lookup_tables data))%Z ->
  no_self_listing (lookup_tables data) i ->
  site_terms (write_site i s data) i =
  neighbor_terms (state data) (lookup_tables data) s i.
Proof.
  intros Hwf Hi Hself.
  pose proof (wf_data_site data i Hwf Hi) as Hwfi.
  unfold site_terms, site_bonds, neighbor_terms.
  rewrite lookup_tables_write_site, map_map.
  apply map_ext_in. intros [j J] Hin. cbn [bond_energy fst snd].
  assert (Hl : lists (lookup_tables data) i j J)
    by (apply directed_bonds_spec; now split).
  destruct (listed_neighbor_nonneg data i j J Hwf Hl) as [_ Hj].
  rewrite !(spin_at_write_site data i _ s Hwfi) by lia.
  rewrite Z.eqb_refl.
  destruct (Z.eqb_spec j i) as [-> | _]; [| reflexivity].
  exfalso. exact (Hself J Hl).
Qed.

Lemma away_terms_write_site (data : SimulationData) (i : Z) (s : vec3) :
  wf_data data = true ->
  (0 <= i < number_sites (lookup_tables data))%Z ->
  map (bond_energy (state (write_site i s data)))
      (filter (away_from i) (directed_bonds (lookup_tables data))) =
  map (bond_energy (state data))
      (filter (away_from i) (directed_bonds (lookup_tables data))).
Proof.
  intros Hwf Hi.
  pose proof (wf_data_site data i Hwf Hi) as Hwfi.
  apply map_ext_in. intros [[a j] J] Hin.
  apply filter_In in Hin. destruct Hin as [Hin Haway].
  unfold away_from in Haway. cbn [fst snd] in Haway.
  apply andb_prop in Haway. destruct Haway as [Ha Hj].
  destruct (listed_neighbor_nonneg data a j J Hwf Hin) as [Ha0 Hj0].
  cbn [bond_energy].
  rewrite !(spin_at_write_site data i _ s Hwfi) by lia.
  destruct (a =? i)%Z; [discriminate |].
  destruct (j =? i)%Z; [discriminate | reflexivity].
Qed.

(** ** Turning every spin *)

Lemma of_spins_spins (st : HeisenbergState.t) :
  length (HeisenbergState.x st) = length (HeisenbergState.y st) ->
  length (HeisenbergState.y st) = length (HeisenbergState.z st) ->
  of_spins (spins st) = st.
Proof.
  destruct st as [a b c]. unfold spins, of_spins. simpl.
  revert b c. induction a as [| u a IH]; intros [| v b] [| w c] H1 H2;
    simpl in *; try discriminate; [reflexivity |].
  injection H1 as H1. injection H2 as H2.
  specialize (IH b c H1 H2). injection IH as -> -> ->. reflexivity.
Qed.

(** A matrix with entries [0], [1] and [-1], rows on three different axes and
    the last row on the [z] axis keeps every scalar product as the code
    evaluates it: the products are the same doubles, and the first two are
    added in either order. *)
Lemma dot_keeps_z_axis (m : cube_map) (u v : vec3) :
  (det m = 1 \/ det m = -1)%Z ->
  keeps_z_axis m = true ->
  dot (mat_apply m u) (mat_apply m v) = dot u v.
Proof.
  destruct m as [[[a0 s0] [a1 s1]] [a2 s2]].
  destruct u as [[u0 u1] u2], v as [[v0 v1] v2].
  intros Hdet Hz.
  destruct a2; try discriminate Hz;
    destruct a0, a1; cbn in Hdet;
    try (destruct s0, s1, s2; cbn in Hdet; lia);
    destruct s0, s1, s2; cbn;
    rewrite ?float_opp_mul_opp; try reflexivity;
    f_equal; apply float_add_comm.
Qed.

Section AmongSpins.

Variable tb : LookupTables.
Variable est : Estimators.

Let data_of (vs : list vec3) : SimulationData :=
  {| state := of_spins vs; lookup_tables := tb; estimators := est |}.

Lemma get_site_spin_vector_of_spins (vs : list vec3) (i : Z) :
  get_site_spin_vector i (data_of vs) = (np_getitem vs i, data_of vs).
Proof.
  unfold get_site_spin_vector, bind, gets, lift, ret. simpl.
  rewrite !np_getitem_map.
  unfold vec3 in *. destruct (np_getitem vs i) as [[[v0 v1] v2] | e]; reflexivity.
Qed.

Lemma weighted_alignment_of_spins (s : vec3) (ws : list vec3) (Js : list float) :
  weighted_alignment s
    (NeighborStates.make (map (fun v => fst (fst v)) ws)
                         (map (fun v => snd (fst v)) ws)
                         (map (fun v => snd v) ws) Js)
  = match np_multiply Js (map (dot s) ws) with
    | Ok terms => Ok (np_sum terms)
    | Raise e => Raise e
    end.
Proof.
  destruct s as [[s0 s1] s2]. unfold weighted_alignment. simpl.
  rewrite !np_scale_map. unfold np_add.
  rewrite np_binop_map, np_binop_map.
  match goal with
  | |- context [np_multiply Js (map ?f ws)] =>
      rewrite (map_ext f (dot (s0, s1, s2)))
  end; [reflexivity |].
  intros [[w0 w1] w2]. reflexivity.
Qed.

Lemma compute_energy_of_spin_vector_at_site_of_spins
      (vs : list vec3) (s : vec3) (i : Z) :
  compute_energy_of_spin_vector_at_site s i (data_of vs) =
  (energy_among_spins tb vs s i, data_of vs).
Proof.
  unfold compute_energy_of_spin_vector_at_site, lookup_neighbor_states,
    energy_among_spins, bind, gets, lift, ret. simpl.
  destruct (np_getitem_int64 (neighbors_count tb) i) as [count | e]; [| reflexivity].
  destruct (np_getitem_int64 (neighbors_lookup_index tb) i) as [start | e];
    [| reflexivity].
  rewrite !np_take_map. unfold vec3 in *.
  destruct (np_take vs (np_slice (neighbors_table tb) start (int64_add start count)))
    as [ws | e]; [| reflexivity].
  now rewrite weighted_alignment_of_spins.
Qed.

Variable F : vec3 -> vec3.
Hypothesis F_isometry : forall u v, dot (F u) (F v) = dot u v.

Lemma energy_among_spins_isometry (vs : list vec3) (s : vec3) (i : Z) :
  energy_among_spins tb (map F vs) (F s) i = energy_among_spins tb vs s i.
Proof.
  unfold energy_among_spins.
  destruct (np_getitem_int64 (neighbors_count tb) i) as [count | e]; [| reflexivity].
  destruct (np_getitem_int64 (neighbors_lookup_index tb) i) as [start | e];
    [| reflexivity].
  rewrite np_take_map.
  destruct (np_take vs _) as [ws | e]; [| reflexivity].
  rewrite map_map.
  now rewrite (map_ext (fun w => dot (F s) (F w)) (dot s) (F_isometry s)).
Qed.

Lemma compute_site_energy_isometry (vs : list vec3) (i : Z) :
  eval (compute_site_energy i) (data_of (map F vs)) =
  eval (compute_site_energy i) (data_of vs).
Proof.
  unfold eval, compute_site_energy, bind.
  rewrite !get_site_spin_vector_of_spins, np_getitem_map.
  destruct (np_getitem vs i) as [v | e]; [| reflexivity].
  rewrite !compute_energy_of_spin_vector_at_site_of_spins. simpl.
  apply energy_among_spins_isometry.
Qed.

Lemma compute_total_energy_isometry (vs : list vec3) :
  eval compute_total_energy (data_of (map F vs)) =
  eval compute_total_energy (data_of vs).
Proof.
  unfold eval. rewrite !compute_total_energy_half_sum. simpl.
  unfold half_sum_of_site_energies. simpl.
  rewrite (traverse_ext _ (fun i => eval (compute_site_energy i) (data_of vs))).
  - reflexivity.
  - intros i _. apply compute_site_energy_isometry.
Qed.

End AmongSpins.

Lemma total_energy_unchanged_by (data : SimulationData) (m : cube_map) :
  (det m = 1 \/ det m = -1)%Z ->
  keeps_z_axis m = true ->
  length (HeisenbergState.x (state data)) = length (HeisenbergState.y (state data)) ->
  length (HeisenbergState.y (state data)) = length (HeisenbergState.z (state data)) ->
  eval compute_total_energy (rotate_state m data) = eval compute_total_energy data.
Proof.
  intros Hdet Hz Hxy Hyz. destruct data as [st tb est]. unfold rotate_state.
  cbn [state lookup_tables estimators] in *.
  rewrite <- (of_spins_spins st Hxy Hyz) at 2.
  apply (compute_total_energy_isometry tb est (mat_apply m)).
  intros u v. now apply dot_keeps_z_axis.
Qed.

(** ** Sublattice sums and the estimators *)

(** The mask [sublattice_table == s] selects the components of the sites of
    sublattice [s], in increasing order of the sites. *)
Lemma select_sublattice (sub : list Z) (s : Z) (a : list float) :
  length a = length sub ->
  select a (np_equal sub s) =
  map (fun i => nth i a 0%float)
      (filter (fun i => (nth i sub (-1) =? s)%Z) (seq 0 (length sub))).
Proof.
  revert sub. induction a as [| u a IH]; intros [| e sub] H; simpl in H;
    try discriminate; [reflexivity |].
  injection H as H. cbn [np_equal map select length seq filter nth].
  fold (np_equal sub s). rewrite (IH sub H).
  rewrite <- seq_shift, filter_map_swap. cbn [nth].
  destruct (e =? s)%Z; cbn [map]; now rewrite map_map.
Qed.

Lemma np_setitem_middle {A : Type} (done rest : list A) (old v : A) :
  np_setitem (done ++ old :: rest) (Z.of_nat (length done)) v
  = Ok (done ++ v :: rest).
Proof.
  unfold np_setitem, np_wrap, np_len. rewrite length_app. simpl.
  destruct (Z.ltb_spec (Z.of_nat (length done)) 0); [lia |].
  destruct (Z.leb_spec 0 (Z.of_nat (length done))); [| lia].
  destruct (Z.ltb_spec (Z.of_nat (length done))
                       (Z.of_nat (length done + S (length rest)))); [| lia].
  simpl. f_equal. rewrite Nat2Z.id. clear.
  induction done as [| w done IH]; simpl; [reflexivity | now rewrite IH].
Qed.

Lemma np_setitem_length {A : Type} (a a' : list A) (i : Z) (v : A) :
  np_setitem a i v = Ok a' -> length a' = length a.
Proof.
  unfold np_setitem. destruct (_ && _); [| discriminate].
  intro H. injection H as <-. apply length_replace_nth.
Qed.

(** The loop that fills one row per sublattice: rows already written stay,
    the remaining rows are written in order. *)
Lemma fill_rows {St : Type} (f : Z -> vec3)
      (body : Z -> list vec3 -> M St (list vec3)) (s : St) :
  (forall k acc, body k acc s = (np_setitem acc k (f k), s)) ->
  forall (m : nat) (done : list vec3),
    for_each (map Z.of_nat (seq (length done) m)) body
             (done ++ repeat (0, 0, 0)%float m) s
    = (Ok (done ++ map f (map Z.of_nat (seq (length done) m))), s).
Proof.
  intro Hbody. induction m as [| m IH]; intro done; simpl.
  - reflexivity.
  - unfold bind. rewrite Hbody, np_setitem_middle.
    replace (done ++ f (Z.of_nat (length done)) :: repeat (0, 0, 0)%float m)
      with ((done ++ [f (Z.of_nat (length done))]) ++ repeat (0, 0, 0)%float m)
      by (now rewrite <- app_assoc).
    replace (S (length done)) with (length (done ++ [f (Z.of_nat (length done))]))
      by (rewrite length_app; simpl; lia).
    rewrite IH. now rewrite <- app_assoc.
Qed.

Lemma sum_spin_vectors_within_sublattices_run (data : SimulationData) :
  sum_spin_vectors_within_sublattices data =
  match np_zeros_rows (number_sublattices (lookup_tables data)) with
  | Ok rows =>
      for_each (range (number_sublattices (lookup_tables data)))
               (fill_sublattice_row (sublattice_table (lookup_tables data)))
               rows data
  | Raise e => (Raise e, data)
  end.
Proof.
  unfold sum_spin_vectors_within_sublattices, bind at 1, gets at 1.
  unfold bind at 1, gets at 1. unfold bind at 1, lift at 1.
  now destruct (np_zeros_rows _).
Qed.

Lemma sum_spin_vectors_within_sublattices_rows (data : SimulationData) :
  let st := state data in
  let tb := lookup_tables data in
  (0 <= number_sublattices tb)%Z ->
  length (HeisenbergState.x st) = length (sublattice_table tb) ->
  length (HeisenbergState.y st) = length (sublattice_table tb) ->
  length (HeisenbergState.z st) = length (sublattice_table tb) ->
  sum_spin_vectors_within_sublattices data =
  (Ok (map (sublattice_sum data) (range (number_sublattices tb))), data).
Proof.
  intros st tb Hk Hx Hy Hz.
  rewrite sum_spin_vectors_within_sublattices_run. fold tb.
  unfold np_zeros_rows.
  destruct (Z.ltb_spec (number_sublattices tb) 0); [lia |].
  unfold range.
  apply (fill_rows (sublattice_sum data) _ data) with (done := []).
  intros k acc. unfold fill_sublattice_row, bind, gets, lift, np_mask. fold st tb.
  unfold np_equal at 1 3 5. rewrite !length_map, Hx, Hy, Hz, !Nat.eqb_refl.
  unfold sublattice_sum, sublattice_component_sum, sublattice_sites. fold st tb.
  now rewrite !select_sublattice by assumption.
Qed.

Lemma nth_map_range {B : Type} (f : Z -> B) (d : B) (n s : Z) :
  (0 <= s < n)%Z -> nth (Z.to_nat s) (map f (range n)) d = f s.
Proof.
  intro H. unfold range. rewrite map_map.
  rewrite (nth_indep _ d (f (Z.of_nat 0))) by (rewrite length_map, length_seq; lia).
  rewrite (map_nth (fun k => f (Z.of_nat k))), seq_nth by lia.
  f_equal. lia.
Qed.

Lemma save_full_state_frame (data : SimulationData) :
  exists est,
    exec save_full_state data =
    {| state := state data; lookup_tables := lookup_tables data; estimators := est |}.
Proof.
  destruct data as [st tb est0].
  unfold exec, save_full_state.
  rewrite (bind_read_only _ _ _ read_only_compute_total_energy).
  destruct (eval compute_total_energy _) as [E | e]; [| now eexists].
  unfold bind at 1, gets at 1. unfold bind at 1, lift at 1.
  destruct (np_setitem _ 0 E) as [new_energy | e]; [| now eexists].
  unfold bind at 1, modify at 1.
  rewrite (bind_read_only _ _ _ read_only_sum_spin_vectors_within_sublattices).
  destruct (eval sum_spin_vectors_within_sublattices _) as [sums | e];
    [| now eexists].
  unfold bind at 1, gets at 1. unfold bind at 1, lift at 1.
  destruct (np_assign_rows _ sums) as [new_vectors | e]; now eexists.
Qed.

Lemma save_full_state_estimators (data : SimulationData) (E : float) :
  let tb := lookup_tables data in
  let st := state data in
  eval compute_total_energy data = Ok E ->
  energy (estimators data) <> [] ->
  (0 <= number_sublattices tb)%Z ->
  np_len (spin_vector (estimators data)) = number_sublattices tb ->
  length (HeisenbergState.x st) = length (sublattice_table tb) ->
  length (HeisenbergState.y st) = length (sublattice_table tb) ->
  length (HeisenbergState.z st) = length (sublattice_table tb) ->
  save_full_state data =
  (Ok tt,
   {| state := st;
      lookup_tables := tb;
      estimators :=
        {| energy := E :: tl (energy (estimators data));
           spin_vector := map (sublattice_sum data) (range (number_sublattices tb)) |}
   |}).
Proof.
  intros tb st HE Hne Hk Hrows Hx Hy Hz.
  unfold save_full_state.
  rewrite (bind_read_only _ _ _ read_only_compute_total_energy), HE.
  unfold bind at 1, gets at 1. unfold bind at 1, lift at 1.
  destruct (energy (estimators data)) as [| e0 rest] eqn:Een; [contradiction |].
  change (np_setitem (e0 :: rest) 0 E)
    with (np_setitem ([] ++ e0 :: rest) (Z.of_nat (length (@nil float))) E).
  rewrite np_setitem_middle. cbn [app tl].
  unfold bind at 1, modify at 1.
  rewrite (bind_read_only _ _ _ read_only_sum_spin_vectors_within_sublattices).
  unfold eval.
  rewrite sum_spin_vectors_within_sublattices_rows; cbn [set_estimators state
    lookup_tables fst]; try assumption.
  unfold bind at 1, gets at 1. unfold bind at 1, lift at 1.
  cbn [set_estimators estimators spin_vector].
  unfold np_assign_rows.
  replace (length (map _ (range (number_sublattices tb))) =?
           length (spin_vector (estimators data)))%nat with true.
  2:{ symmetry. apply Nat.eqb_eq. unfold range. rewrite !length_map, length_seq.
      unfold np_len in Hrows. fold tb. lia. }
  unfold modify, set_estimators. reflexivity.
Qed.

(** ** Drawing from the generator *)

Lemma random_samples_run (n : nat) (g : RandomState) :
  random_samples n g =
  (Ok (map (fun k => draws g (cursor g + k)%nat) (seq 0 n)), advance g n).
Proof.
  revert g. induction n as [| n IH]; intro g.
  - simpl. unfold ret, advance. now rewrite Nat.add_0_r; destruct g.
  - cbn [random_samples]. unfold bind at 1. unfold random_sample at 1.
    unfold bind at 1. rewrite IH. unfold ret. cbn [draws cursor seq map].
    rewrite Nat.add_0_r, <- seq_shift, map_map. unfold advance. cbn [draws cursor].
    f_equal.
    + do 2 f_equal. apply map_ext. intro k. f_equal. lia.
    + f_equal. lia.
Qed.

Lemma np_random_uniform_run (low high : float) (size : Z) (g : RandomState) :
  (0 <= size)%Z ->
  np_random_uniform low high size g =
  (Ok (map (fun k => low + (high - low) * draws g (cursor g + k)%nat)%float
           (seq 0 (Z.to_nat size))),
   advance g (Z.to_nat size)).
Proof.
  intro H. unfold np_random_uniform.
  destruct (Z.ltb_spec size 0); [lia |].
  unfold bind. rewrite random_samples_run. unfold ret. now rewrite map_map.
Qed.

Lemma nth_map_seq {B : Type} (f : nat -> B) (d : B) (n k : nat) :
  (k < n)%nat -> nth k (map f (seq 0 n)) d = f k.
Proof.
  intro H. rewrite (nth_indep _ d (f O)) by (rewrite length_map, length_seq; lia).
  now rewrite map_nth, seq_nth.
Qed.

Section SamplingFacts.

Variables np_sin np_cos np_arccos : float -> float.

Lemma sample_random_state_run (number_sites : Z) (g : RandomState) :
  (0 <= number_sites)%Z ->
  let n := Z.to_nat number_sites in
  sample_random_state np_sin np_cos np_arccos number_sites g =
  (Ok (HeisenbergState.make
         (map (fun k => np_sin (np_arccos (polar_cosine g n k))
                        * np_cos (azimuth g k))%float (seq 0 n))
         (map (fun k => np_sin (np_arccos (polar_cosine g n k))
                        * np_sin (azimuth g k))%float (seq 0 n))
         (map (fun k => np_cos (np_arccos (polar_cosine g n k))) (seq 0 n))),
   advance g (n + n)).
Proof.
  intros H n. unfold sample_random_state.
  unfold bind at 1. rewrite (np_random_uniform_run _ _ _ _ H). fold n.
  unfold bind at 1. rewrite (np_random_uniform_run _ _ _ _ H). fold n.
  rewrite np_scale_map, !map_map. unfold np_multiply.
  unfold bind at 1, lift at 1. rewrite np_binop_map.
  unfold bind at 1, lift at 1. rewrite np_binop_map.
  unfold ret. cbn [advance draws cursor].
  f_equal. unfold advance. cbn [draws cursor]. f_equal. lia.
Qed.

End SamplingFacts.

(** ** Indices outside the arrays *)



Lemma get_site_spin_vector_negative (data : SimulationData) (i n : Z) :
  np_len (HeisenbergState.x (state data)) = n ->
  np_len (HeisenbergState.y (state data)) = n ->
  np_len (HeisenbergState.z (state data)) = n ->
  (- n <= i < 0)%Z ->
  get_site_spin_vector i data = get_site_spin_vector (i + n) data.
Proof.
  intros Hx Hy Hz H. unfold get_site_spin_vector, bind, gets, lift.
  rewrite (np_getitem_negative (HeisenbergState.x _) i) by lia.
  rewrite (np_getitem_negative (HeisenbergState.y _) i) by lia.
  rewrite (np_getitem_negative (HeisenbergState.z _) i) by lia.
  now rewrite Hx, Hy, Hz.
Qed.

Lemma lookup_neighbor_states_negative (data : SimulationData) (i n : Z) :
  np_len (neighbors_count (lookup_tables data)) = n ->
  np_len (neighbors_lookup_index (lookup_tables data)) = n ->
  (- n <= i < 0)%Z ->
  lookup_neighbor_states i data = lookup_neighbor_states (i + n) data.
Proof.
  intros Hc Ho H. unfold lookup_neighbor_states, bind, gets, lift.
  rewrite (np_getitem_int64_negative (neighbors_count _) i) by lia.
  rewrite (np_getitem_int64_negative (neighbors_lookup_index _) i) by lia.
  now rewrite Hc, Ho.
Qed.

(** ** The properties of the specification *)

(** C3. For every site [i] that meets the data-model constraints,
    [compute_site_energy i] returns the sum, over the neighbors [j] that the
    site lists, of [J_ij * (s_i . s_j)]; the neighbors and their couplings are
    exactly the entries of [neighbors_table] and
    [interaction_parameters_table] at the positions
    [[neighbors_lookup_index[i], neighbors_lookup_index[i] + neighbors_count[i])].
    The sum is the double that [np.sum] returns for these terms in the order
    of the block, every addition rounded; each term is the double
    [J_ij * ((x_i * x_j + y_i * y_j) + z_i * z_j)], every operation
    rounded. *)
Theorem site_energy_is_neighbor_sum (data : SimulationData) (i : Z) :
  wf_site data i = true ->
  compute_site_energy i data =
  (Ok (np_sum
         (map (fun k =>
                 nth k (interaction_parameters_table (lookup_tables data)) 0
                 * dot (spin_at (state data) i)
                       (spin_at (state data)
                                (nth k (neighbors_table (lookup_tables data)) 0%Z)))%float
              (seq (Z.to_nat (nth (Z.to_nat i)
                                  (neighbors_lookup_index (lookup_tables data)) 0%Z))
                   (Z.to_nat (nth (Z.to_nat i)
                                  (neighbors_count (lookup_tables data)) 0%Z))))),
   data).
Proof.
  intro Hwf. rewrite (compute_site_energy_wf data i Hwf).
  unfold site_terms, site_bonds, listed_neighbors, block_positions.
  now rewrite !map_map.
Qed.

(** The middle site of the chain adds up the two neighbors of its block, which
    starts at position 1; the middle site of the star adds [2^53] and [1],
    and the sum is rounded to [2^53]. *)
Lemma site_energy_is_neighbor_sum_witness :
  wf_site chain_data 1 = true /\
  compute_site_energy 1 chain_data =
  (Ok (np_sum [0x1p53 * 1; -1 * 1]%float), chain_data) /\
  wf_site star_data 1 = true /\
  compute_site_energy 1 star_data = (Ok 0x1p53%float, star_data).
Proof.
  split; [reflexivity |].
  split; [rewrite (site_energy_is_neighbor_sum chain_data 1 eq_refl); reflexivity |].
  split; [reflexivity |].
  rewrite (site_energy_is_neighbor_sum star_data 1 eq_refl). reflexivity.
Defined.

(** C9. The evaluators [compute_site_energy],
    [compute_energy_of_spin_vector_at_site], [compute_total_energy],
    [lookup_neighbor_states] and [sum_spin_vectors_within_sublattices] (and
    [get_site_spin_vector]) return with the spin state, the lookup tables and
    the estimators exactly as they found them, whether they return a value or
    raise; [save_full_state], the one writer of the module, changes the
    estimators only. *)
Theorem evaluators_leave_data_unchanged :
  (forall i data, exec (compute_site_energy i) data = data) /\
  (forall s i data, exec (compute_energy_of_spin_vector_at_site s i) data = data) /\
  (forall data, exec compute_total_energy data = data) /\
  (forall i data, exec (lookup_neighbor_states i) data = data) /\
  (forall data, exec sum_spin_vectors_within_sublattices data = data) /\
  (forall i data, exec (get_site_spin_vector i) data = data) /\
  (forall data,
      state (exec save_full_state data) = state data /\
      lookup_tables (exec save_full_state data) = lookup_tables data).
Proof.
  repeat split.
  - intros i. apply read_only_compute_site_energy.
  - intros s i. apply read_only_compute_energy_of_spin_vector_at_site.
  - apply read_only_compute_total_energy.
  - intros i. apply read_only_lookup_neighbor_states.
  - apply read_only_sum_spin_vectors_within_sublattices.
  - intros i. apply read_only_get_site_spin_vector.
  - destruct (save_full_state_frame data) as [est ->]. reflexivity.
  - destruct (save_full_state_frame data) as [est ->]. reflexivity.
Qed.

(** C10. For every site [i] and every state and tables, [compute_site_energy i] is
    [compute_energy_of_spin_vector_at_site] applied to the spin vector that
    [get_site_spin_vector i] reads, at site [i]; when the read raises, so does
    [compute_site_energy], with the same exception. *)
Theorem site_energy_is_trial_energy_of_own_spin (i : Z) (data : SimulationData) :
  compute_site_energy i data =
  match eval (get_site_spin_vector i) data with
  | Ok site_spin => compute_energy_of_spin_vector_at_site site_spin i data
  | Raise e => (Raise e, data)
  end.
Proof.
  unfold compute_site_energy.
  apply bind_read_only, read_only_get_site_spin_vector.
Qed.




(** C1, as the code has it. For every state and lookup tables,
    [compute_total_energy] returns the sum over all sites of
    [compute_site_energy], added from the left to [0.] in binary64 and divided
    by [2.0] (or raises what the first failing site raises).

    The doubles [J_ij * (s_i . s_j)] that the sites add up are the same double
    from either end of a bond.  Whenever the tables record every undirected
    bond once from each of its endpoints, and nothing else, these doubles are,
    up to their order, the doubles of the bonds, each taken twice.  This is so
    whenever no site lists itself and the tables satisfy the symmetry
    invariant counted with multiplicity, in particular when A lists B with
    coupling J iff B lists A with the same J and no entry is repeated; the
    bonds are then the entries listed from the endpoint of smaller index.

    Hence the value is the sum over the bonds, each counted once, up to the
    rounding of the additions; it is not that sum in general. *)
Theorem total_energy_counts_bonds_once (data : SimulationData) :
  let st := state data in
  let tb := lookup_tables data in
  compute_total_energy data = (half_sum_of_site_energies data, data) /\
  (wf_data data = true ->
   compute_total_energy data =
   (Ok (total_of_terms (map (site_terms data) (range (number_sites tb)))), data)) /\
  energy_terms data = concat (map (site_terms data) (range (number_sites tb))) /\
  (forall b, bond_energy st (swap_bond b) = bond_energy st b) /\
  (forall bonds,
      records_each_bond_twice tb bonds ->
      Permutation (energy_terms data)
                  (map (bond_energy st) bonds ++ map (bond_energy st) bonds)) /\
  (bond_symmetric_counted tb ->
   (forall i, no_self_listing tb i) ->
   Permutation (energy_terms data)
               (map (bond_energy st) (lower_bonds tb)
                ++ map (bond_energy st) (lower_bonds tb))) /\
  (bond_symmetric tb ->
   NoDup (directed_bonds tb) ->
   (forall i, no_self_listing tb i) ->
   Permutation (energy_terms data)
               (map (bond_energy st) (lower_bonds tb)
                ++ map (bond_energy st) (lower_bonds tb))).
Proof.
  intros st tb.
  split; [apply compute_total_energy_half_sum |].
  split; [apply compute_total_energy_wf |].
  split; [apply energy_terms_by_site |].
  split; [apply bond_energy_swap |].
  split; [intro bonds; apply energy_terms_of_recorded_bonds |].
  split.
  - intros Hsym Hself. apply energy_terms_of_recorded_bonds.
    now apply lower_bonds_record_each_bond.
  - intros Hsym Hnd Hself. apply energy_terms_of_recorded_bonds.
    apply lower_bonds_record_each_bond; [| assumption].
    now apply bond_symmetric_no_repetition.
Qed.

Lemma chain_entries :
  directed_bonds chain_tables =
  [(0%Z, 1%Z, 0x1p53%float); (1%Z, 0%Z, 0x1p53%float);
   (1%Z, 2%Z, (-1)%float); (2%Z, 1%Z, (-1)%float)].
Proof. reflexivity. Qed.

Lemma chain_bond_symmetric_counted : bond_symmetric_counted chain_tables.
Proof.
  unfold bond_symmetric_counted. rewrite chain_entries. cbn [map swap_bond].
  etransitivity; [apply perm_swap |]. do 2 apply perm_skip. apply perm_swap.
Qed.

Lemma chain_bond_symmetric : bond_symmetric chain_tables.
Proof.
  intros a b J. unfold lists. rewrite chain_entries.
  split; (intros [H | [H | [H | [H | []]]]]; injection H as <- <- <-; simpl; tauto).
Qed.

Lemma chain_no_repeated_entry : NoDup (directed_bonds chain_tables).
Proof.
  rewrite chain_entries.
  repeat constructor; simpl; intuition discriminate.
Qed.

Lemma chain_no_self_listing (i : Z) : no_self_listing chain_tables i.
Proof.
  intros J H. unfold lists in H. rewrite chain_entries in H.
  destruct H as [H | [H | [H | [H | []]]]]; injection H as H1 H2 H3; lia.
Qed.

Lemma chain_records_each_bond_twice :
  records_each_bond_twice chain_tables
    [(0%Z, 1%Z, 0x1p53%float); (1%Z, 2%Z, (-1)%float)].
Proof.
  unfold records_each_bond_twice. rewrite chain_entries. cbn [map swap_bond app].
  apply perm_skip, perm_swap.
Qed.

(** On the chain the sites add up [2^53], [2^53 - 1] and [-1], and the total
    energy is [2^53]; the doubles added are those of the two bonds, twice. *)
Lemma total_energy_counts_bonds_once_witness :
  wf_data chain_data = true /\
  records_each_bond_twice chain_tables
    [(0%Z, 1%Z, 0x1p53%float); (1%Z, 2%Z, (-1)%float)] /\
  compute_total_energy chain_data = (Ok 0x1p53%float, chain_data) /\
  Permutation (energy_terms chain_data) [0x1p53; -1; 0x1p53; -1]%float /\
  Permutation (energy_terms chain_data)
              (map (bond_energy (state chain_data)) (lower_bonds chain_tables)
               ++ map (bond_energy (state chain_data)) (lower_bonds chain_tables)).
Proof.
  split; [reflexivity |]. split; [exact chain_records_each_bond_twice |].
  destruct (total_energy_counts_bonds_once chain_data)
    as (_ & Hsites & _ & _ & Hbonds & Hcounted & Hsimple).
  pose proof (Hsimple chain_bond_symmetric chain_no_repeated_entry
                chain_no_self_listing) as _.
  split; [rewrite (Hsites eq_refl); reflexivity |].
  split; [exact (Hbonds _ chain_records_each_bond_twice) |].
  exact (Hcounted chain_bond_symmetric_counted chain_no_self_listing).
Defined.

(** C1, as stated, fails, for two reasons.

    A site that lists itself once satisfies "A lists B with coupling J iff B
    lists A with the same J" (also when entries are counted with
    multiplicity), its single bond has energy [J * (s . s) = 1], and
    [compute_total_energy] returns one half.

    Where no site lists itself and no entry is repeated, the additions round:
    on the chain with couplings [2^53] and [-1] and all spins along [x], the
    doubles of the two bonds are [2^53] and [-1] and their sum is the double
    [2^53 - 1]; the sites add up [2^53], [2^53 - 1] and [-1], the sum
    [2^54 - 1] of the first two is rounded to [2^54], and
    [compute_total_energy] returns [2^53]. *)
Lemma total_energy_is_not_the_bond_sum :
  ~ (forall data : SimulationData,
        wf_data data = true ->
        bond_symmetric (lookup_tables data) ->
        bond_symmetric_counted (lookup_tables data) ->
        eval compute_total_energy data =
        Ok (bond_sum (state data) (lower_bonds (lookup_tables data)))) /\
  ~ (forall data : SimulationData,
        wf_data data = true ->
        bond_symmetric (lookup_tables data) ->
        bond_symmetric_counted (lookup_tables data) ->
        NoDup (directed_bonds (lookup_tables data)) ->
        (forall i, no_self_listing (lookup_tables data) i) ->
        eval compute_total_energy data =
        Ok (bond_sum (state data) (lower_bonds (lookup_tables data)))).
Proof.
  split; intro H.
  - specialize (H self_bond_data eq_refl).
    assert (Hsym : bond_symmetric (lookup_tables self_bond_data)).
    { intros a b J. unfold lists.
      change (directed_bonds (lookup_tables self_bond_data))
        with [(0%Z, 0%Z, 1%float)].
      split; (intros [E | []]; injection E as <- <- <-; now left). }
    specialize (H Hsym (Permutation_refl _)).
    different_doubles H.
  - specialize (H chain_data eq_refl chain_bond_symmetric
                  chain_bond_symmetric_counted chain_no_repeated_entry
                  chain_no_self_listing).
    different_doubles H.
Qed.

(** C2, as the code has it. For well-formed tables that are symmetric counted
    with multiplicity, any site [i] that does not list itself, and any
    candidate spin vector [s'], replacing the spin of site [i] with [s'] (all
    other sites unchanged) changes the doubles that [compute_total_energy]
    adds up only in the terms of the bonds of site [i]: each of them enters
    twice, before the replacement as the doubles that [compute_site_energy i]
    adds up, after it as the doubles that
    [compute_energy_of_spin_vector_at_site s' i] adds up on the data before the
    replacement; all other terms stay.

    Hence the change of the total energy is the local difference up to the
    rounding of the additions; it is not that difference in general. *)
Theorem local_energy_difference_is_global
        (data : SimulationData) (i : Z) (s' : vec3) :
  wf_data data = true ->
  bond_symmetric_counted (lookup_tables data) ->
  (0 <= i < number_sites (lookup_tables data))%Z ->
  no_self_listing (lookup_tables data) i ->
  let tb := lookup_tables data in
  let data' := write_site i s' data in
  let old := site_terms data i in
  let new := neighbor_terms (state data) tb s' i in
  exists rest : list float,
    compute_site_energy i data = (Ok (np_sum old), data) /\
    compute_energy_of_spin_vector_at_site s' i data = (Ok (np_sum new), data) /\
    compute_total_energy data =
    (Ok (total_of_terms (map (site_terms data) (range (number_sites tb)))), data) /\
    compute_total_energy data' =
    (Ok (total_of_terms (map (site_terms data') (range (number_sites tb)))), data') /\
    Permutation (concat (map (site_terms data) (range (number_sites tb))))
                (old ++ old ++ rest) /\
    Permutation (concat (map (site_terms data') (range (number_sites tb))))
                (new ++ new ++ rest).
Proof.
  intros Hwf Hsym Hi Hself tb data' old new. subst tb data' old new.
  pose proof (wf_data_site data i Hwf Hi) as Hwfi.
  assert (Hwf' : wf_data (write_site i s' data) = true)
    by now rewrite wf_data_write_site.
  pose proof (lookup_tables_write_site data i s') as Htb.
  exists (map (bond_energy (state data))
              (filter (away_from i) (directed_bonds (lookup_tables data)))).
  split; [now apply compute_site_energy_wf |].
  split; [now apply compute_energy_of_spin_vector_at_site_wf |].
  split; [now apply compute_total_energy_wf |].
  split; [rewrite (compute_total_energy_wf _ Hwf'); now rewrite Htb |].
  split.
  - rewrite <- energy_terms_by_site.
    exact (energy_terms_around_site (state data) _ i Hsym Hi Hself).
  - rewrite <- Htb at 1. rewrite <- energy_terms_by_site.
    unfold energy_terms. rewrite Htb.
    rewrite <- (away_terms_write_site data i s' Hwf Hi).
    rewrite <- (site_terms_write_site data i s' Hwf Hi Hself).
    unfold site_terms. rewrite Htb.
    exact (energy_terms_around_site (state (write_site i s' data)) _ i
             Hsym Hi Hself).
Qed.

(** Turning the spin of the last site of the chain from [x] to [y]: the terms
    [-1] of its bond become [-0.], twice, and the terms [2^53] of the other
    bond stay. *)
Lemma local_energy_difference_is_global_witness :
  wf_data chain_data = true /\
  exists rest : list float,
    compute_site_energy 2 chain_data = (Ok (np_sum [-1]%float), chain_data) /\
    compute_energy_of_spin_vector_at_site (0, 1, 0)%float 2 chain_data =
    (Ok (np_sum [-0]%float), chain_data) /\
    Permutation (concat (map (site_terms chain_data) (range 3)))
                ([-1]%float ++ [-1]%float ++ rest) /\
    Permutation
      (concat (map (site_terms (write_site 2 (0, 1, 0)%float chain_data)) (range 3)))
      ([-0]%float ++ [-0]%float ++ rest).
Proof.
  split; [reflexivity |].
  assert (Hi : (0 <= 2 < number_sites chain_tables)%Z) by (simpl; lia).
  destruct (local_energy_difference_is_global chain_data 2 (0, 1, 0)%float
              eq_refl chain_bond_symmetric_counted Hi (chain_no_self_listing 2))
    as (rest & Hold & Hnew & _ & _ & Hbefore & Hafter).
  exists rest. repeat split; assumption.
Defined.

(** C2, as stated, fails, for two reasons.

    When a site neighbors itself: in the periodic chain of one site the tables
    are symmetric (and record the bond from both of its ends); reversing the
    spin leaves the total energy at [1], while the local difference is
    [-2 - 2].

    Where no site lists itself, the additions round: on the chain with
    couplings [2^53] and [-1], turning the spin of the last site from [x] to
    [y] leaves the total energy at [2^53], while the local difference is
    [0. - -1 = 1]. *)
Lemma local_difference_is_not_the_global_one :
  ~ (forall (data : SimulationData) (i : Z) (s' : vec3) (E E' e' e : float),
        wf_data data = true ->
        bond_symmetric (lookup_tables data) ->
        bond_symmetric_counted (lookup_tables data) ->
        (exists bonds, records_each_bond_twice (lookup_tables data) bonds) ->
        (0 <= i < number_sites (lookup_tables data))%Z ->
        eval compute_total_energy data = Ok E ->
        eval compute_total_energy (write_site i s' data) = Ok E' ->
        eval (compute_energy_of_spin_vector_at_site s' i) data = Ok e' ->
        eval (compute_site_energy i) data = Ok e ->
        (E' - E = e' - e)%float) /\
  ~ (forall (data : SimulationData) (i : Z) (s' : vec3) (E E' e' e : float),
        wf_data data = true ->
        bond_symmetric (lookup_tables data) ->
        bond_symmetric_counted (lookup_tables data) ->
        NoDup (directed_bonds (lookup_tables data)) ->
        (forall a, no_self_listing (lookup_tables data) a) ->
        (0 <= i < number_sites (lookup_tables data))%Z ->
        eval compute_total_energy data = Ok E ->
        eval compute_total_energy (write_site i s' data) = Ok E' ->
        eval (compute_energy_of_spin_vector_at_site s' i) data = Ok e' ->
        eval (compute_site_energy i) data = Ok e ->
        (E' - E = e' - e)%float).
Proof.
  split; intro H.
  - specialize (H periodic_site_data 0%Z (-1, 0, 0)%float
                  1%float 1%float (-2)%float 2%float eq_refl).
    assert (Hsym : bond_symmetric (lookup_tables periodic_site_data)).
    { intros a b J. unfold lists.
      change (directed_bonds (lookup_tables periodic_site_data))
        with [(0%Z, 0%Z, 1%float); (0%Z, 0%Z, 1%float)].
      split; (intros [E | [E | []]]; injection E as <- <- <-; now left). }
    assert (Hrec : exists bonds,
               records_each_bond_twice (lookup_tables periodic_site_data) bonds).
    { exists [(0%Z, 0%Z, 1%float)]. apply Permutation_refl. }
    assert (Hi : (0 <= 0 < number_sites (lookup_tables periodic_site_data))%Z)
      by (simpl; lia).
    specialize (H Hsym (Permutation_refl _) Hrec Hi
                  eq_refl eq_refl eq_refl eq_refl).
    different_doubles H.
  - assert (Hi : (0 <= 2 < number_sites (lookup_tables chain_data))%Z)
      by (simpl; lia).
    specialize (H chain_data 2%Z (0, 1, 0)%float
                  0x1p53%float 0x1p53%float 0%float (-1)%float eq_refl
                  chain_bond_symmetric chain_bond_symmetric_counted
                  chain_no_repeated_entry chain_no_self_listing Hi
                  eq_refl eq_refl eq_refl eq_refl).
    different_doubles H.
Qed.

(** C5, as the code has it. For every state (one spin vector per site) and
    lookup tables, and every rotation of the cube that maps the [z] axis to
    itself or to its opposite (the quarter turns about the [z] axis and the
    half turns about an axis of the [xy] plane), applying the rotation to the
    spin vector of every site leaves the result of [compute_total_energy]
    unchanged, be it a value or an exception: the scalar product is evaluated
    as [(x x' + y y') + z z'], and such a rotation keeps the three products
    and exchanges at most the first two.  Under another rotation the value
    changes with the rounding of these additions. *)
Theorem total_energy_rotation_invariant (data : SimulationData) (m : cube_map) :
  is_rotation m = true ->
  keeps_z_axis m = true ->
  length (HeisenbergState.x (state data)) = length (HeisenbergState.y (state data)) ->
  length (HeisenbergState.y (state data)) = length (HeisenbergState.z (state data)) ->
  eval compute_total_energy (rotate_state m data) = eval compute_total_energy data.
Proof.
  intros Hrot Hz Hxy Hyz. apply total_energy_unchanged_by; try assumption.
  left. now apply Z.eqb_eq.
Qed.

(** The quarter turn about [z] maps the spins [(2^53, 1, -2^53)] and
    [(1, 1, 1)] to [(-1, 2^53, -2^53)] and [(-1, 1, 1)]; the total energy is
    [0.] before and after. *)
Lemma total_energy_rotation_invariant_witness :
  is_rotation quarter_turn_z = true /\
  spins (state (rotate_state quarter_turn_z tilted_pair_data)) =
  [(-1, 0x1p53, -0x1p53); (-1, 1, 1)]%float /\
  eval compute_total_energy (rotate_state quarter_turn_z tilted_pair_data) =
  eval compute_total_energy tilted_pair_data /\
  eval compute_total_energy tilted_pair_data = Ok 0%float.
Proof.
  split; [reflexivity |]. split; [reflexivity |].
  split; [| reflexivity].
  exact (total_energy_rotation_invariant tilted_pair_data quarter_turn_z
           eq_refl eq_refl eq_refl eq_refl).
Defined.

(** C5, as stated, fails: the rotation [(x, y, z) -> (z, x, y)] maps the spins
    [(2^53, 1, -2^53)] and [(1, 1, 1)] of two bonded sites, whose scalar
    product is evaluated as [(2^53 + 1) - 2^53 = 0.], to [(-2^53, 2^53, 1)] and
    [(1, 1, 1)], whose scalar product is evaluated as
    [(-2^53 + 2^53) + 1 = 1.]: the total energy is [0.] before the rotation
    and [1.] after it. *)
Lemma rotation_changes_total_energy :
  ~ (forall (data : SimulationData) (m : cube_map),
        is_rotation m = true ->
        length (HeisenbergState.x (state data))
        = length (HeisenbergState.y (state data)) ->
        length (HeisenbergState.y (state data))
        = length (HeisenbergState.z (state data)) ->
        eval compute_total_energy (rotate_state m data) =
        eval compute_total_energy data).
Proof.
  intro H.
  specialize (H tilted_pair_data cycle_axes eq_refl eq_refl eq_refl).
  different_doubles H.
Qed.

(** C6. On a sampling event whose total energy evaluates to [E],
    [save_full_state] writes [E] to element [0] of the energy estimator and
    sets [spin_vector[s]], for every sublattice [s] of
    [[0, number_sublattices)], to the componentwise sum of [(x, y, z)] over
    exactly the sites whose [sublattice_table] entry equals [s]; the spin
    state and the lookup tables stay as they were.  Each sum is the double
    that [np.sum] returns for the components of these sites in increasing
    order of the sites, every addition rounded. *)
Theorem save_full_state_sets_estimators (data : SimulationData) (E : float) :
  let tb := lookup_tables data in
  let st := state data in
  eval compute_total_energy data = Ok E ->
  energy (estimators data) <> [] ->
  (0 <= number_sublattices tb)%Z ->
  np_len (spin_vector (estimators data)) = number_sublattices tb ->
  length (HeisenbergState.x st) = length (sublattice_table tb) ->
  length (HeisenbergState.y st) = length (sublattice_table tb) ->
  length (HeisenbergState.z st) = length (sublattice_table tb) ->
  exists data',
    save_full_state data = (Ok tt, data') /\
    state data' = st /\
    lookup_tables data' = tb /\
    np_getitem (energy (estimators data')) 0 = Ok E /\
    forall s, (0 <= s < number_sublattices tb)%Z ->
              np_getitem (spin_vector (estimators data')) s =
              Ok (np_sum (map (fun i => nth i (HeisenbergState.x st) 0%float)
                              (sublattice_sites tb s)),
                  np_sum (map (fun i => nth i (HeisenbergState.y st) 0%float)
                              (sublattice_sites tb s)),
                  np_sum (map (fun i => nth i (HeisenbergState.z st) 0%float)
                              (sublattice_sites tb s))).
Proof.
  intros tb st HE Hne Hk Hrows Hx Hy Hz.
  eexists. split.
  { now apply (save_full_state_estimators data E). }
  cbn [state lookup_tables estimators energy spin_vector].
  split; [reflexivity |]. split; [reflexivity |]. split; [reflexivity |].
  intros s Hs. fold tb.
  rewrite (np_getitem_in_range _ _ (0, 0, 0)%float).
  - now rewrite nth_map_range.
  - apply in_range_spec. unfold np_len, range.
    rewrite !length_map, length_seq. lia.
Qed.

(** The chain has the sites 0 and 2 on sublattice 0 and the site 1 on
    sublattice 1; the star has the [x] components [2^53], [1] and [1] on one
    sublattice, and their sum is rounded to [2^53]. *)
Lemma save_full_state_sets_estimators_witness :
  eval compute_total_energy chain_data = Ok 0x1p53%float /\
  estimators (exec save_full_state chain_data) =
  {| energy := [0x1p53%float];
     spin_vector := [(2, 0, 0); (1, 0, 0)]%float |} /\
  eval compute_total_energy star_data = Ok 0x1p52%float /\
  exists data',
    save_full_state star_data = (Ok tt, data') /\
    np_getitem (energy (estimators data')) 0 = Ok 0x1p52%float /\
    np_getitem (spin_vector (estimators data')) 0 = Ok (0x1p53, 0, 0)%float.
Proof.
  split; [reflexivity |]. split; [reflexivity |]. split; [reflexivity |].
  destruct (save_full_state_sets_estimators star_data 0x1p52%float)
    as (data' & Hsave & _ & _ & Henergy & Hrows);
    try reflexivity; [simpl; discriminate | simpl; lia |].
  exists data'. split; [exact Hsave |]. split; [exact Henergy |].
  rewrite (Hrows 0%Z) by (simpl; lia). reflexivity.
Defined.

Section SamplingClaims.

Variables np_sin np_cos np_arccos : float -> float.


End SamplingClaims.


(** ** Beyond the specification: shapes, domains and exceptions *)

Lemma np_clip_bounds (len i : Z) : (0 <= len -> 0 <= np_clip len i <= len)%Z.
Proof. unfold np_clip. lia. Qed.

Lemma np_slice_length {A : Type} (a : list A) (start stop : Z) :
  Z.of_nat (length (np_slice a start stop)) =
  Z.max 0 (np_clip (np_len a) stop - np_clip (np_len a) start).
Proof.
  unfold np_slice. rewrite length_firstn, length_skipn.
  assert (Hlen : (0 <= np_len a)%Z) by (unfold np_len; lia).
  pose proof (np_clip_bounds (np_len a) start Hlen).
  pose proof (np_clip_bounds (np_len a) stop Hlen).
  unfold np_len in *. lia.
Qed.

Lemma np_slice_at_most_count {A : Type} (a : list A) (start count : Z) :
  (0 <= count)%Z ->
  (Z.of_nat (length (np_slice a start (start + count))) <= count)%Z.
Proof.
  intro Hcount. rewrite np_slice_length.
  assert (Hlen : (0 <= np_len a)%Z) by (unfold np_len; lia).
  unfold np_clip, np_wrap.
  destruct (Z.ltb_spec start 0), (Z.ltb_spec (start + count) 0); lia.
Qed.

(** The end of a block is the int64 sum of its start and its count; when the
    sum wraps around, the slice of an array of fewer than [2^63] elements is
    empty. *)
Lemma np_slice_block_at_most_count {A : Type} (a : list A) (start count : Z) :
  (np_len a < 2 ^ 63)%Z ->
  (- 2 ^ 63 <= start < 2 ^ 63)%Z ->
  (0 <= count < 2 ^ 63)%Z ->
  (Z.of_nat (length (np_slice a start (int64_add start count))) <= count)%Z.
Proof.
  intros Ha Hstart Hcount.
  destruct (Z_lt_dec (start + count) (2 ^ 63)) as [Hfit | Hover].
  - rewrite int64_add_fits by lia. now apply np_slice_at_most_count.
  - assert (Hend : int64_add start count = (start + count - 2 ^ 64)%Z).
    { unfold int64_add, int64.
      replace (start + count + 2 ^ 63)%Z
        with (start + count - 2 ^ 63 + 1 * 2 ^ 64)%Z by lia.
      rewrite Z.mod_add by lia. rewrite Z.mod_small; lia. }
    rewrite Hend, np_slice_length.
    assert (Hlen : (0 <= np_len a)%Z) by (unfold np_len; lia).
    unfold np_clip, np_wrap.
    destruct (Z.ltb_spec start 0); [lia |].
    destruct (Z.ltb_spec (start + count - 2 ^ 64) 0); lia.
Qed.

Lemma np_slice_nothing {A : Type} (a : list A) (start : Z) :
  np_slice a start (start + 0) = [].
Proof.
  apply length_zero_iff_nil.
  pose proof (np_slice_at_most_count a start 0). lia.
Qed.

Lemma index_failure_cases (i : Z) (e : exn) :
  e = index_failure i ->
  e = IndexError \/ (e = OverflowError /\ fits_c_long i = false).
Proof.
  intros ->. unfold index_failure. destruct (fits_c_long i); auto.
Qed.

Lemma lookup_neighbor_states_result (data : SimulationData) (i : Z) :
  let tb := lookup_tables data in
  match eval (lookup_neighbor_states i) data with
  | Ok ns =>
      exists count,
        np_getitem_int64 (neighbors_count tb) i = Ok count /\
        length (NeighborStates.x ns) = length (NeighborStates.y ns) /\
        length (NeighborStates.y ns) = length (NeighborStates.z ns) /\
        ((0 <= count)%Z ->
         (np_len (neighbors_table tb) < 2 ^ 63)%Z ->
         (np_len (interaction_parameters_table tb) < 2 ^ 63)%Z ->
         (Z.of_nat (length (NeighborStates.x ns)) <= count)%Z /\
         (Z.of_nat (length (NeighborStates.interaction_parameters ns))
          <= count)%Z) /\
        (np_len (neighbors_table tb) = np_len (interaction_parameters_table tb) ->
         length (NeighborStates.interaction_parameters ns) =
         length (NeighborStates.x ns))
  | Raise e => e = IndexError \/ (e = OverflowError /\ fits_c_long i = false)
  end.
Proof.
  intro tb. unfold eval, lookup_neighbor_states, bind, gets, lift, ret. fold tb.
  destruct (np_getitem_int64 (neighbors_count tb) i) as [count | e] eqn:Ec;
    [| now apply (index_failure_cases i), (np_getitem_int64_raises _ _ _ Ec)].
  destruct (np_getitem_int64 (neighbors_lookup_index tb) i) as [start | e] eqn:Eo;
    [| now apply (index_failure_cases i), (np_getitem_int64_raises _ _ _ Eo)].
  destruct (np_take (HeisenbergState.x _) _) as [nx | e] eqn:Ex;
    [| left; exact (np_take_raises _ _ _ Ex)].
  destruct (np_take (HeisenbergState.y _) _) as [ny | e] eqn:Ey;
    [| left; exact (np_take_raises _ _ _ Ey)].
  destruct (np_take (HeisenbergState.z _) _) as [nz | e] eqn:Ez;
    [| left; exact (np_take_raises _ _ _ Ez)].
  cbn [fst NeighborStates.x NeighborStates.y NeighborStates.z
       NeighborStates.interaction_parameters].
  apply traverse_length in Ex, Ey, Ez.
  exists count. split; [reflexivity |].
  split; [congruence |]. split; [congruence |].
  assert (Hs : (- 2 ^ 63 <= start < 2 ^ 63)%Z).
  { unfold np_getitem_int64 in Eo.
    destruct (np_getitem (neighbors_lookup_index tb) i); [| discriminate].
    injection Eo as <-. apply int64_range. }
  assert (Hc : (- 2 ^ 63 <= count < 2 ^ 63)%Z).
  { unfold np_getitem_int64 in Ec.
    destruct (np_getitem (neighbors_count tb) i); [| discriminate].
    injection Ec as <-. apply int64_range. }
  split.
  { intros Hcount Hl1 Hl2. rewrite Ex.
    split; apply np_slice_block_at_most_count; lia. }
  intro Hlen. rewrite Ex. apply Nat2Z.inj.
  now rewrite !np_slice_length, Hlen.
Qed.

(** X1. Whatever the tables hold, the neighbor states that
    [lookup_neighbor_states] returns have [x], [y] and [z] of one common
    length; for tables of fewer than [2^63] entries it is at most
    [neighbors_count[i]] when that count is not negative; the couplings are as
    many when the two flattened tables have the same length.  When it does
    not return, the exception is [IndexError], or [OverflowError] for an
    index that fits no C long. *)
Theorem lookup_neighbor_states_shape (data : SimulationData) (i : Z) :
  let tb := lookup_tables data in
  match eval (lookup_neighbor_states i) data with
  | Ok ns =>
      exists count,
        np_getitem_int64 (neighbors_count tb) i = Ok count /\
        length (NeighborStates.x ns) = length (NeighborStates.y ns) /\
        length (NeighborStates.y ns) = length (NeighborStates.z ns) /\
        ((0 <= count)%Z ->
         (np_len (neighbors_table tb) < 2 ^ 63)%Z ->
         (np_len (interaction_parameters_table tb) < 2 ^ 63)%Z ->
         (Z.of_nat (length (NeighborStates.x ns)) <= count)%Z /\
         (Z.of_nat (length (NeighborStates.interaction_parameters ns))
          <= count)%Z) /\
        (np_len (neighbors_table tb) = np_len (interaction_parameters_table tb) ->
         length (NeighborStates.interaction_parameters ns) =
         length (NeighborStates.x ns))
  | Raise e => e = IndexError \/ (e = OverflowError /\ fits_c_long i = false)
  end.
Proof. apply lookup_neighbor_states_result. Qed.

(** X2. [get_site_spin_vector] returns exactly when the index is one numpy
    accepts for each of the three component arrays, that is within
    [[-len, len)] of each; otherwise it raises [IndexError] when the index
    fits a C long and [OverflowError] when it does not, and nothing else. *)
Theorem get_site_spin_vector_domain (data : SimulationData) (i : Z) :
  let st := state data in
  ((valid_index (HeisenbergState.x st) i /\
    valid_index (HeisenbergState.y st) i /\
    valid_index (HeisenbergState.z st) i)
   <-> exists v, eval (get_site_spin_vector i) data = Ok v) /\
  (forall e, eval (get_site_spin_vector i) data = Raise e ->
             e = if fits_c_long i then IndexError else OverflowError).
Proof.
  intro st. unfold eval, get_site_spin_vector, bind, gets, lift, ret. fold st.
  destruct (np_getitem (HeisenbergState.x st) i) as [vx | ex] eqn:Ex.
  2:{ cbn [fst]. destruct (np_getitem_raises _ _ _ Ex) as [-> Hx]. split.
      - split; [tauto | intros [v H]; discriminate].
      - intros e H. now injection H as <-. }
  destruct (np_getitem (HeisenbergState.y st) i) as [vy | ey] eqn:Ey.
  2:{ cbn [fst]. destruct (np_getitem_raises _ _ _ Ey) as [-> Hy]. split.
      - split; [tauto | intros [v H]; discriminate].
      - intros e H. now injection H as <-. }
  destruct (np_getitem (HeisenbergState.z st) i) as [vz | ez] eqn:Ez.
  2:{ cbn [fst]. destruct (np_getitem_raises _ _ _ Ez) as [-> Hz]. split.
      - split; [tauto | intros [v H]; discriminate].
      - intros e H. now injection H as <-. }
  cbn [fst]. split; [| discriminate].
  split; [now eexists |]. intros _.
  repeat split; eapply np_getitem_returns; eassumption.
Qed.

(** X3. A site whose [neighbors_count] entry is zero has energy zero for
    every spin vector, whatever its offset and whatever the state and the
    flattened tables hold. *)
Theorem isolated_site_has_zero_energy (data : SimulationData) (i : Z) (s : vec3) :
  np_getitem (neighbors_count (lookup_tables data)) i = Ok 0%Z ->
  valid_index (neighbors_lookup_index (lookup_tables data)) i ->
  compute_energy_of_spin_vector_at_site s i data = (Ok 0%float, data).
Proof.
  intros Hc Ho. destruct (np_getitem_valid _ _ Ho) as [start Hstart].
  unfold compute_energy_of_spin_vector_at_site, lookup_neighbor_states,
    bind, gets, lift, ret, np_getitem_int64.
  rewrite Hc, Hstart.
  replace (int64_add (int64 start) (int64 0)) with (int64 start + 0)%Z.
  2:{ unfold int64_add. change (int64 0) with 0%Z. rewrite Z.add_0_r.
      symmetry. apply int64_fits, int64_range. }
  rewrite !np_slice_nothing. simpl.
  destruct s as [[s0 s1] s2]. reflexivity.
Qed.

Lemma isolated_site_has_zero_energy_witness :
  np_getitem (neighbors_count (lookup_tables misaligned_data)) 1 = Ok 0%Z /\
  compute_energy_of_spin_vector_at_site (0, 0, 1)%float 1 misaligned_data
  = (Ok 0%float, misaligned_data).
Proof.
  split; [reflexivity |].
  apply isolated_site_has_zero_energy; [reflexivity |].
  unfold valid_index, np_len. simpl. lia.
Defined.

(** X4. With [number_sites <= 0] the loop of [compute_total_energy] runs over
    no site: the result is [0] and no table is read, so no malformed table can
    make it raise. *)
Theorem empty_lattice_has_zero_energy (data : SimulationData) :
  (number_sites (lookup_tables data) <= 0)%Z ->
  compute_total_energy data = (Ok 0%float, data).
Proof.
  intro H. unfold compute_total_energy, bind at 1, gets at 1.
  unfold range. replace (Z.to_nat (number_sites (lookup_tables data))) with O by lia.
  reflexivity.
Qed.

Lemma empty_lattice_has_zero_energy_witness :
  compute_total_energy empty_data = (Ok 0%float, empty_data).
Proof.
  apply empty_lattice_has_zero_energy. simpl. lia.
Defined.

(** ** Beyond the specification: couplings that do not line up *)

Lemma zip3_components (a b c : list float) :
  length a = length b -> length b = length c ->
  a = map (fun v => fst (fst v)) (zip3 a b c) /\
  b = map (fun v => snd (fst v)) (zip3 a b c) /\
  c = map (fun v => snd v) (zip3 a b c).
Proof.
  intros Hab Hbc.
  pose proof (of_spins_spins (HeisenbergState.make a b c) Hab Hbc) as H.
  unfold of_spins, spins in H. cbn [HeisenbergState.x HeisenbergState.y
    HeisenbergState.z] in H.
  injection H as Ha Hb Hc. now rewrite Ha, Hb, Hc.
Qed.

Lemma weighted_alignment_zip3 (s : vec3) (ns : NeighborStates.t) :
  length (NeighborStates.x ns) = length (NeighborStates.y ns) ->
  length (NeighborStates.y ns) = length (NeighborStates.z ns) ->
  weighted_alignment s ns =
  match np_multiply (NeighborStates.interaction_parameters ns)
                    (map (dot s) (zip3 (NeighborStates.x ns) (NeighborStates.y ns)
                                       (NeighborStates.z ns))) with
  | Ok terms => Ok (np_sum terms)
  | Raise e => Raise e
  end.
Proof.
  destruct ns as [a b c Js].
  cbn [NeighborStates.x NeighborStates.y NeighborStates.z
       NeighborStates.interaction_parameters].
  intros Hab Hbc. destruct (zip3_components a b c Hab Hbc) as (Ha & Hb & Hc).
  rewrite <- weighted_alignment_of_spins. now rewrite <- Ha, <- Hb, <- Hc.
Qed.

Lemma compute_energy_of_spin_vector_at_site_run
      (data : SimulationData) (i : Z) (s : vec3) :
  compute_energy_of_spin_vector_at_site s i data =
  (match eval (lookup_neighbor_states i) data with
   | Ok ns => weighted_alignment s ns
   | Raise e => Raise e
   end, data).
Proof.
  unfold compute_energy_of_spin_vector_at_site.
  rewrite (bind_read_only _ _ _ (read_only_lookup_neighbor_states i)).
  now destruct (eval (lookup_neighbor_states i) data).
Qed.

Lemma np_binop_defined (f : float -> float -> float) (a b : list float) :
  (length a = length b \/ length a = 1 \/ length b = 1)%nat ->
  exists t, np_binop f a b = Ok t.
Proof.
  intro H. unfold np_binop.
  destruct (Nat.eqb_spec (length a) (length b)) as [_ | Hne]; [now eexists |].
  destruct H as [H | [H | H]]; [contradiction | |].
  - destruct a as [| u [| u' a]]; try discriminate. now eexists.
  - destruct b as [| v [| v' b]]; try discriminate.
    destruct a as [| u [| u' a]]; now eexists.
Qed.

Lemma np_binop_refused (f : float -> float -> float) (a b : list float) :
  length a <> length b -> length a <> 1%nat -> length b <> 1%nat ->
  np_binop f a b = Raise ValueError.
Proof.
  intros Hne Ha Hb. unfold np_binop.
  destruct (Nat.eqb_spec (length a) (length b)); [contradiction |].
  destruct a as [| u [| u' a]]; destruct b as [| v [| v' b]];
    simpl in *; try reflexivity; congruence.
Qed.

(** A single coupling multiplies every element. *)
Lemma np_multiply_single (J : float) (b : list float) :
  np_multiply [J] b = Ok (map (PrimFloat.mul J) b).
Proof.
  unfold np_multiply, np_binop.
  destruct (Nat.eqb_spec (length [J]) (length b)) as [Hlen | _]; [| reflexivity].
  destruct b as [| v [| v' b]]; try discriminate. reflexivity.
Qed.

Lemma lookup_neighbor_states_lengths (data : SimulationData) (i : Z)
      (ns : NeighborStates.t) :
  eval (lookup_neighbor_states i) data = Ok ns ->
  length (NeighborStates.x ns) = length (NeighborStates.y ns) /\
  length (NeighborStates.y ns) = length (NeighborStates.z ns) /\
  (np_len (neighbors_table (lookup_tables data)) =
   np_len (interaction_parameters_table (lookup_tables data)) ->
   length (NeighborStates.interaction_parameters ns) =
   length (NeighborStates.x ns)).
Proof.
  intro H. pose proof (lookup_neighbor_states_result data i) as Hr.
  cbv zeta in Hr. rewrite H in Hr.
  destruct Hr as (count & _ & Hxy & Hyz & _ & HJ). tauto.
Qed.

Lemma length_zip3 (a b c : list float) :
  length a = length b -> length b = length c -> length (zip3 a b c) = length a.
Proof.
  revert b c. induction a as [| u a IH]; intros [| v b] [| w c] Hab Hbc;
    simpl in *; try discriminate; [reflexivity |].
  f_equal. apply IH; congruence.
Qed.

(** X5. Once [lookup_neighbor_states] has returned [m] neighbors and [p]
    couplings, [compute_energy_of_spin_vector_at_site] returns a value when
    [p = m] or when one of the two is [1], and raises [ValueError] otherwise.
    A single coupling against several neighbors is not refused: numpy
    broadcasts it, every alignment [s . s_j] is multiplied by that coupling,
    and the result is the sum of these products. *)
Theorem trial_energy_broadcasts_couplings
        (data : SimulationData) (i : Z) (s : vec3) (ns : NeighborStates.t) :
  eval (lookup_neighbor_states i) data = Ok ns ->
  let Js := NeighborStates.interaction_parameters ns in
  let ws := zip3 (NeighborStates.x ns) (NeighborStates.y ns) (NeighborStates.z ns) in
  length ws = length (NeighborStates.x ns) /\
  ((length Js = length ws \/ length Js = 1 \/ length ws = 1)%nat ->
   exists e, compute_energy_of_spin_vector_at_site s i data = (Ok e, data)) /\
  (length Js <> length ws -> length Js <> 1%nat -> length ws <> 1%nat ->
   compute_energy_of_spin_vector_at_site s i data = (Raise ValueError, data)) /\
  (forall J, Js = [J] ->
             compute_energy_of_spin_vector_at_site s i data =
             (Ok (np_sum (map (fun w => J * dot s w)%float ws)), data)).
Proof.
  intros Hns Js ws.
  destruct (lookup_neighbor_states_lengths data i ns Hns) as (Hxy & Hyz & _).
  rewrite compute_energy_of_spin_vector_at_site_run, Hns.
  rewrite (weighted_alignment_zip3 s ns Hxy Hyz). fold Js ws.
  split; [now apply length_zip3 |]. split; [| split].
  - intro H. destruct (np_binop_defined PrimFloat.mul Js (map (dot s) ws)) as [t Ht].
    { now rewrite length_map. }
    unfold np_multiply. rewrite Ht. now eexists.
  - intros H1 H2 H3. unfold np_multiply.
    rewrite np_binop_refused; [reflexivity | | assumption |];
      now rewrite length_map.
  - intros J HJ. rewrite HJ, np_multiply_single. now rewrite map_map.
Qed.

(** Site 2 lists two neighbors and finds the single coupling [3]: the
    alignments [1] and [1] are both multiplied by it. *)
Lemma trial_energy_broadcasts_couplings_witness :
  eval (lookup_neighbor_states 2) misaligned_data =
  Ok (NeighborStates.make [1; 0]%float [0; 1]%float [0; 0]%float [3]%float) /\
  compute_energy_of_spin_vector_at_site (1, 1, 0)%float 2 misaligned_data =
  (Ok 6%float, misaligned_data).
Proof.
  assert (H : eval (lookup_neighbor_states 2) misaligned_data =
              Ok (NeighborStates.make [1; 0]%float [0; 1]%float [0; 0]%float
                                      [3]%float))
    by reflexivity.
  split; [exact H |].
  destruct (trial_energy_broadcasts_couplings misaligned_data 2 (1, 1, 0)%float _ H)
    as (_ & _ & _ & Hsingle).
  rewrite (Hsingle 3%float eq_refl). reflexivity.
Defined.

Lemma trial_energy_never_raises_value_error
      (data : SimulationData) (s : vec3) (i : Z) (e : exn) :
  np_len (neighbors_table (lookup_tables data)) =
  np_len (interaction_parameters_table (lookup_tables data)) ->
  eval (compute_energy_of_spin_vector_at_site s i) data = Raise e ->
  e = IndexError \/ (e = OverflowError /\ fits_c_long i = false).
Proof.
  intros Hlen. unfold eval. rewrite compute_energy_of_spin_vector_at_site_run.
  cbn [fst]. pose proof (lookup_neighbor_states_result data i) as Hr.
  cbv zeta in Hr.
  destruct (eval (lookup_neighbor_states i) data) as [ns | e'] eqn:Hns.
  - destruct (lookup_neighbor_states_lengths data i ns Hns) as (Hxy & Hyz & HJ).
    rewrite (weighted_alignment_zip3 s ns Hxy Hyz).
    destruct (np_binop_defined PrimFloat.mul
                (NeighborStates.interaction_parameters ns)
                (map (dot s) (zip3 (NeighborStates.x ns) (NeighborStates.y ns)
                                   (NeighborStates.z ns)))) as [t Ht].
    { left. rewrite length_map, length_zip3 by assumption. now apply HJ. }
    unfold np_multiply. rewrite Ht. discriminate.
  - intro H. injection H as <-. exact Hr.
Qed.

Lemma site_energy_never_raises_value_error
      (data : SimulationData) (i : Z) (e : exn) :
  np_len (neighbors_table (lookup_tables data)) =
  np_len (interaction_parameters_table (lookup_tables data)) ->
  eval (compute_site_energy i) data = Raise e ->
  e = IndexError \/ (e = OverflowError /\ fits_c_long i = false).
Proof.
  intros Hlen. unfold eval, compute_site_energy.
  rewrite (bind_read_only _ _ _ (read_only_get_site_spin_vector i)).
  destruct (eval (get_site_spin_vector i) data) as [s | e'] eqn:Hs.
  - apply (trial_energy_never_raises_value_error data s i e Hlen).
  - cbn [fst]. intro H. injection H as <-.
    apply index_failure_cases.
    destruct (get_site_spin_vector_domain data i) as [_ Hraise].
    unfold index_failure. now apply Hraise.
Qed.

(** X6. When [neighbors_table] and [interaction_parameters_table] have the
    same length, the energy evaluators never raise [ValueError]: whatever else
    is wrong with the data, the only exceptions of
    [compute_energy_of_spin_vector_at_site], [compute_site_energy] and
    [compute_total_energy] are [IndexError] and, for a site index that fits
    no C long, [OverflowError]. *)
Theorem aligned_tables_never_raise_value_error (data : SimulationData) :
  np_len (neighbors_table (lookup_tables data)) =
  np_len (interaction_parameters_table (lookup_tables data)) ->
  (forall s i e,
      eval (compute_energy_of_spin_vector_at_site s i) data = Raise e ->
      e = IndexError \/ (e = OverflowError /\ fits_c_long i = false)) /\
  (forall i e,
      eval (compute_site_energy i) data = Raise e ->
      e = IndexError \/ (e = OverflowError /\ fits_c_long i = false)) /\
  (forall e,
      eval compute_total_energy data = Raise e ->
      e = IndexError \/
      (e = OverflowError /\ (2 ^ 63 <= number_sites (lookup_tables data))%Z)).
Proof.
  intro Hlen. split; [| split].
  - intros s i e. now apply trial_energy_never_raises_value_error.
  - intros i e. now apply site_energy_never_raises_value_error.
  - intros e. unfold eval. rewrite compute_total_energy_half_sum. cbn [fst].
    unfold half_sum_of_site_energies.
    destruct (traverse _ _) as [es | e'] eqn:Ht; [discriminate |].
    intro H. injection H as <-.
    destruct (traverse_raises_somewhere _ _ _ Ht) as (i & Hi & Hraise).
    apply range_spec in Hi.
    destruct (site_energy_never_raises_value_error data i e' Hlen Hraise)
      as [-> | [-> Hfits]]; [now left |].
    right. split; [reflexivity |].
    unfold fits_c_long in Hfits. apply andb_false_iff in Hfits.
    destruct Hfits as [Hlow | Hhigh].
    + apply Z.leb_gt in Hlow. lia.
    + apply Z.ltb_ge in Hhigh. lia.
Qed.

Lemma aligned_tables_never_raise_value_error_witness :
  np_len (neighbors_table (lookup_tables short_state_data)) =
  np_len (interaction_parameters_table (lookup_tables short_state_data)) /\
  eval compute_total_energy short_state_data = Raise IndexError.
Proof.
  split; [reflexivity |].
  destruct (eval compute_total_energy short_state_data) as [E | e] eqn:H;
    [discriminate H |].
  destruct (aligned_tables_never_raise_value_error short_state_data eq_refl)
    as (_ & _ & Htotal).
  destruct (Htotal e H) as [-> | [_ Hbig]]; [reflexivity |].
  simpl in Hbig. lia.
Defined.

(** ** Beyond the specification: mirror images and accepted moves *)

(** X7. The total energy does not tell a lattice from its mirror image: the
    inversion [s -> - s] of every spin, and every reflection of the cube
    that maps the [z] axis to itself or to its opposite, leaves the result of
    [compute_total_energy] unchanged bit for bit, value or exception. *)
Theorem total_energy_reflection_invariant (data : SimulationData) (m : cube_map) :
  det m = (-1)%Z ->
  keeps_z_axis m = true ->
  length (HeisenbergState.x (state data)) = length (HeisenbergState.y (state data)) ->
  length (HeisenbergState.y (state data)) = length (HeisenbergState.z (state data)) ->
  eval compute_total_energy (rotate_state m data) = eval compute_total_energy data.
Proof.
  intros Hdet Hz Hxy Hyz. apply total_energy_unchanged_by; try assumption.
  now right.
Qed.

Lemma total_energy_reflection_invariant_witness :
  spins (state (rotate_state inversion tilted_pair_data)) =
  [(-0x1p53, -1, 0x1p53); (-1, -1, -1)]%float /\
  eval compute_total_energy (rotate_state inversion tilted_pair_data) =
  eval compute_total_energy tilted_pair_data.
Proof.
  split; [reflexivity |].
  exact (total_energy_reflection_invariant tilted_pair_data inversion
           eq_refl eq_refl eq_refl eq_refl).
Defined.

(** The sites that do not list a site keep their terms when its spin is
    replaced. *)
Lemma site_terms_away_from_write (data : SimulationData) (i j : Z) (s : vec3) :
  wf_data data = true ->
  (0 <= i < number_sites (lookup_tables data))%Z ->
  (0 <= j < number_sites (lookup_tables data))%Z ->
  j <> i ->
  (forall J, ~ lists (lookup_tables data) j i J) ->
  site_terms (write_site i s data) j = site_terms data j.
Proof.
  intros Hwf Hi Hj Hne Hnot.
  pose proof (wf_data_site data i Hwf Hi) as Hwfi.
  unfold site_terms, site_bonds. rewrite lookup_tables_write_site, !map_map.
  apply map_ext_in. intros [k J] Hin. cbn [bond_energy fst snd].
  assert (Hl : lists (lookup_tables data) j k J)
    by (apply directed_bonds_spec; now split).
  destruct (listed_neighbor_nonneg data j k J Hwf Hl) as [_ Hk].
  rewrite !(spin_at_write_site data i _ s Hwfi) by lia.
  destruct (Z.eqb_spec j i) as [| _]; [contradiction |].
  destruct (Z.eqb_spec k i) as [-> | _]; [| reflexivity].
  exfalso. exact (Hnot J Hl).
Qed.

(** X23. The trial energy is the energy after the move, bit for bit: on
    well-formed data, when site [i] does not list itself, writing the
    candidate [s'] to the site makes [compute_site_energy i] return exactly
    what [compute_energy_of_spin_vector_at_site s' i] returned before the
    write; and the energy of every other site that does not list [i] is what
    it was. *)
Theorem accepted_move_has_the_trial_energy
        (data : SimulationData) (i : Z) (s' : vec3) :
  wf_data data = true ->
  (0 <= i < number_sites (lookup_tables data))%Z ->
  no_self_listing (lookup_tables data) i ->
  eval (compute_site_energy i) (write_site i s' data) =
  eval (compute_energy_of_spin_vector_at_site s' i) data /\
  forall j, (0 <= j < number_sites (lookup_tables data))%Z ->
            j <> i ->
            (forall J, ~ lists (lookup_tables data) j i J) ->
            eval (compute_site_energy j) (write_site i s' data) =
            eval (compute_site_energy j) data.
Proof.
  intros Hwf Hi Hself.
  assert (Hwf' : wf_data (write_site i s' data) = true)
    by now rewrite wf_data_write_site.
  pose proof (lookup_tables_write_site data i s') as Htb.
  split.
  - unfold eval.
    rewrite (compute_site_energy_wf (write_site i s' data) i)
      by (apply wf_data_site; [assumption | now rewrite Htb]).
    rewrite (compute_energy_of_spin_vector_at_site_wf data i
               (wf_data_site data i Hwf Hi)).
    cbn [fst]. now rewrite (site_terms_write_site data i s' Hwf Hi Hself).
  - intros j Hj Hne Hnot. unfold eval.
    rewrite (compute_site_energy_wf (write_site i s' data) j)
      by (apply wf_data_site; [assumption | now rewrite Htb]).
    rewrite (compute_site_energy_wf data j (wf_data_site data j Hwf Hj)).
    cbn [fst]. now rewrite (site_terms_away_from_write data i j s' Hwf Hi Hj Hne Hnot).
Qed.

(** On the chain, turning the spin of site 2 gives site 2 the trial energy
    [0.] and leaves the energy [2^53] of site 0, which does not list it. *)
Lemma accepted_move_has_the_trial_energy_witness :
  eval (compute_site_energy 2) (write_site 2 (0, 1, 0)%float chain_data) =
  eval (compute_energy_of_spin_vector_at_site (0, 1, 0)%float 2) chain_data /\
  eval (compute_energy_of_spin_vector_at_site (0, 1, 0)%float 2) chain_data
  = Ok 0%float /\
  eval (compute_site_energy 0) (write_site 2 (0, 1, 0)%float chain_data) =
  eval (compute_site_energy 0) chain_data.
Proof.
  assert (Hi : (0 <= 2 < number_sites (lookup_tables chain_data))%Z)
    by (simpl; lia).
  destruct (accepted_move_has_the_trial_energy chain_data 2 (0, 1, 0)%float
              eq_refl Hi (chain_no_self_listing 2)) as [Htrial Hothers].
  split; [exact Htrial |]. split; [reflexivity |].
  apply Hothers; [simpl; lia | lia |].
  intros J H. unfold lists in H.
  change (lookup_tables chain_data) with chain_tables in H.
  rewrite chain_entries in H.
  destruct H as [H | [H | [H | [H | []]]]]; discriminate H.
Defined.

(** ** Beyond the specification: the estimators *)

Lemma sublattice_sites_spec (tb : LookupTables) (s : Z) (i : nat) :
  In i (sublattice_sites tb s) <->
  (i < length (sublattice_table tb))%nat /\ nth i (sublattice_table tb) (-1)%Z = s.
Proof.
  unfold sublattice_sites. rewrite filter_In, in_seq, Z.eqb_eq. lia.
Qed.

(** The rows of different sublattices share no site. *)
Lemma rows_share_no_site (tb : LookupTables) (subs : list Z) :
  NoDup subs -> NoDup (concat (map (sublattice_sites tb) subs)).
Proof.
  induction 1 as [| s subs Hnotin Hnd IH]; cbn [map concat]; [constructor |].
  apply NoDup_app.
  - unfold sublattice_sites. apply NoDup_filter, seq_NoDup.
  - exact IH.
  - intros i Hi Hin. apply in_concat in Hin. destruct Hin as (l & Hl & Hil).
    apply in_map_iff in Hl. destruct Hl as (s' & <- & Hs').
    apply sublattice_sites_spec in Hi, Hil.
    destruct Hi as [_ <-], Hil as [_ <-]. contradiction.
Qed.

(** X12. The rows that [sum_spin_vectors_within_sublattices] returns split the
    lattice: row [s] adds up the components of the sites whose
    [sublattice_table] entry is [s], no site enters two rows, and a site
    enters none exactly when its entry is no sublattice of
    [[0, number_sublattices)]. *)
Theorem sublattice_rows_split_the_lattice (data : SimulationData) :
  let st := state data in
  let tb := lookup_tables data in
  length (HeisenbergState.x st) = length (sublattice_table tb) ->
  length (HeisenbergState.y st) = length (sublattice_table tb) ->
  length (HeisenbergState.z st) = length (sublattice_table tb) ->
  (0 <= number_sublattices tb)%Z ->
  sum_spin_vectors_within_sublattices data =
  (Ok (map (sublattice_sum data) (range (number_sublattices tb))), data) /\
  NoDup (concat (map (sublattice_sites tb) (range (number_sublattices tb)))) /\
  forall i,
    In i (concat (map (sublattice_sites tb) (range (number_sublattices tb)))) <->
    (i < length (sublattice_table tb))%nat /\
    (0 <= nth i (sublattice_table tb) (-1) < number_sublattices tb)%Z.
Proof.
  intros st tb Hx Hy Hz Hk.
  split; [now apply sum_spin_vectors_within_sublattices_rows |].
  split; [apply rows_share_no_site, range_NoDup |].
  intro i. rewrite in_concat. split.
  - intros (l & Hl & Hil). apply in_map_iff in Hl. destruct Hl as (s & <- & Hs).
    apply range_spec in Hs. apply sublattice_sites_spec in Hil.
    destruct Hil as [Hi <-]. now split.
  - intros [Hi Hs]. exists (sublattice_sites tb (nth i (sublattice_table tb) (-1)%Z)).
    split.
    + apply in_map_iff. eexists. split; [reflexivity |]. now apply range_spec.
    + apply sublattice_sites_spec. now split.
Qed.

Lemma sublattice_rows_split_the_lattice_witness :
  sum_spin_vectors_within_sublattices chain_data =
  (Ok [(2, 0, 0); (1, 0, 0)]%float, chain_data) /\
  concat (map (sublattice_sites chain_tables) (range 2)) = [0; 2; 1]%nat /\
  NoDup (concat (map (sublattice_sites chain_tables) (range 2))).
Proof.
  destruct (sublattice_rows_split_the_lattice chain_data)
    as (Hrows & Hnd & _); try reflexivity; [simpl; lia |].
  split; [rewrite Hrows; reflexivity |]. split; [reflexivity | exact Hnd].
Defined.

Lemma range_starts_at_zero (k : Z) :
  (0 < k)%Z -> exists rest, range k = 0%Z :: rest.
Proof.
  intro H. unfold range. destruct (Z.to_nat k) as [| n] eqn:E; [lia |].
  simpl. now eexists.
Qed.

(** The loop over the sublattices keeps the number of rows. *)
Lemma fill_sublattice_rows_length (data : SimulationData) (sub subs : list Z)
      (acc rows : list vec3) :
  eval (for_each subs (fill_sublattice_row sub) acc) data = Ok rows ->
  length rows = length acc.
Proof.
  revert acc. induction subs as [| s subs IH]; intros acc H.
  - unfold eval in H. simpl in H. now injection H as <-.
  - unfold eval in H. cbn [for_each] in H. unfold bind at 1 in H.
    destruct (fill_sublattice_row sub s acc data) as [[acc' | e] d] eqn:E;
      [| discriminate H].
    assert (Hd : d = data /\ length acc' = length acc).
    { unfold fill_sublattice_row, bind, gets, lift in E.
      destruct (np_mask (HeisenbergState.x (state data)) _); [| discriminate E].
      destruct (np_mask (HeisenbergState.y (state data)) _); [| discriminate E].
      destruct (np_mask (HeisenbergState.z (state data)) _); [| discriminate E].
      destruct (np_setitem acc s _) as [acc'' |] eqn:Eset; [| discriminate E].
      injection E as <- <-. split; [reflexivity |].
      now apply np_setitem_length in Eset. }
    destruct Hd as [-> <-]. now apply IH.
Qed.

(** X13. [sum_spin_vectors_within_sublattices] refuses a negative
    [number_sublattices] with [ValueError]; with [number_sublattices = 0] it
    returns no row, whatever the arrays; with a positive one, a component
    array whose length differs from that of [sublattice_table] makes it raise
    [IndexError]. Whenever it returns, it returns exactly
    [number_sublattices] rows. *)
Theorem sublattice_sums_shape_and_errors (data : SimulationData) :
  let st := state data in
  let tb := lookup_tables data in
  ((number_sublattices tb < 0)%Z ->
   sum_spin_vectors_within_sublattices data = (Raise ValueError, data)) /\
  (number_sublattices tb = 0%Z ->
   sum_spin_vectors_within_sublattices data = (Ok [], data)) /\
  ((0 < number_sublattices tb)%Z ->
   (length (HeisenbergState.x st) <> length (sublattice_table tb) \/
    length (HeisenbergState.y st) <> length (sublattice_table tb) \/
    length (HeisenbergState.z st) <> length (sublattice_table tb)) ->
   sum_spin_vectors_within_sublattices data = (Raise IndexError, data)) /\
  (forall rows,
      eval sum_spin_vectors_within_sublattices data = Ok rows ->
      np_len rows = number_sublattices tb).
Proof.
  intros st tb.
  assert (Hneg : (number_sublattices tb < 0)%Z ->
                 sum_spin_vectors_within_sublattices data = (Raise ValueError, data)).
  { intro H. unfold sum_spin_vectors_within_sublattices, bind, gets, lift,
      np_zeros_rows. fold tb.
    destruct (Z.ltb_spec (number_sublattices tb) 0); [reflexivity | lia]. }
  assert (Hzero : number_sublattices tb = 0%Z ->
                  sum_spin_vectors_within_sublattices data = (Ok [], data)).
  { intro H. unfold sum_spin_vectors_within_sublattices, bind, gets, lift,
      np_zeros_rows. fold tb. rewrite H. reflexivity. }
  assert (Hbad : (0 < number_sublattices tb)%Z ->
     (length (HeisenbergState.x st) <> length (sublattice_table tb) \/
      length (HeisenbergState.y st) <> length (sublattice_table tb) \/
      length (HeisenbergState.z st) <> length (sublattice_table tb)) ->
     sum_spin_vectors_within_sublattices data = (Raise IndexError, data)).
  { intros Hk Hlen.
    unfold sum_spin_vectors_within_sublattices, bind at 1, gets at 1.
    unfold bind at 1, gets at 1. unfold bind at 1, lift at 1, np_zeros_rows.
    fold tb. destruct (Z.ltb_spec (number_sublattices tb) 0); [lia |].
    destruct (range_starts_at_zero _ Hk) as [rest ->].
    cbn [for_each]. unfold bind, gets, lift, np_mask, np_equal. fold st tb.
    rewrite !length_map.
    destruct (Nat.eqb_spec (length (HeisenbergState.x st))
                           (length (sublattice_table tb))); [| reflexivity].
    destruct (Nat.eqb_spec (length (HeisenbergState.y st))
                           (length (sublattice_table tb))); [| reflexivity].
    destruct (Nat.eqb_spec (length (HeisenbergState.z st))
                           (length (sublattice_table tb))); [| reflexivity].
    tauto. }
  split; [exact Hneg |]. split; [exact Hzero |]. split; [exact Hbad |].
  intros rows Hrows. unfold eval in Hrows.
  rewrite sum_spin_vectors_within_sublattices_run in Hrows. fold tb in Hrows.
  unfold np_zeros_rows in Hrows.
  destruct (Z.ltb_spec (number_sublattices tb) 0) as [| Hk]; [discriminate Hrows |].
  apply fill_sublattice_rows_length in Hrows.
  unfold np_len. rewrite Hrows, repeat_length. lia.
Qed.

Lemma sublattice_sums_shape_and_errors_witness :
  sum_spin_vectors_within_sublattices ragged_data = (Raise IndexError, ragged_data) /\
  sum_spin_vectors_within_sublattices empty_data = (Ok [], empty_data).
Proof.
  destruct (sublattice_sums_shape_and_errors ragged_data) as (_ & _ & Hbad & _).
  destruct (sublattice_sums_shape_and_errors empty_data) as (_ & Hzero & _).
  split.
  - apply Hbad; [simpl; lia |]. left. simpl. discriminate.
  - apply Hzero. reflexivity.
Defined.

(** ** Beyond the specification: saving the estimators *)

Lemma compute_site_energy_ignores_estimators
      (st : HeisenbergState.t) (tb : LookupTables) (e1 e2 : Estimators) (i : Z) :
  eval (compute_site_energy i)
       {| state := st; lookup_tables := tb; estimators := e1 |} =
  eval (compute_site_energy i)
       {| state := st; lookup_tables := tb; estimators := e2 |}.
Proof.
  unfold eval, compute_site_energy, compute_energy_of_spin_vector_at_site,
    get_site_spin_vector, lookup_neighbor_states, bind, gets, lift, ret.
  simpl.
  destruct (np_getitem (HeisenbergState.x st) i); simpl; [| reflexivity].
  destruct (np_getitem (HeisenbergState.y st) i); simpl; [| reflexivity].
  destruct (np_getitem (HeisenbergState.z st) i); simpl; [| reflexivity].
  destruct (np_getitem_int64 (neighbors_count tb) i); simpl; [| reflexivity].
  destruct (np_getitem_int64 (neighbors_lookup_index tb) i); simpl; [| reflexivity].
  destruct (np_take (HeisenbergState.x st) _); simpl; [| reflexivity].
  destruct (np_take (HeisenbergState.y st) _); simpl; [| reflexivity].
  destruct (np_take (HeisenbergState.z st) _); reflexivity.
Qed.

Lemma compute_total_energy_ignores_estimators
      (st : HeisenbergState.t) (tb : LookupTables) (e1 e2 : Estimators) :
  eval compute_total_energy
       {| state := st; lookup_tables := tb; estimators := e1 |} =
  eval compute_total_energy
       {| state := st; lookup_tables := tb; estimators := e2 |}.
Proof.
  unfold eval. rewrite !compute_total_energy_half_sum. cbn [fst].
  unfold half_sum_of_site_energies. cbn [lookup_tables].
  now rewrite (traverse_ext _ _ _
                 (fun i _ => compute_site_energy_ignores_estimators st tb e1 e2 i)).
Qed.

Lemma for_each_same_value {A B : Type} (l : list A)
      (body : A -> B -> M SimulationData B) (d1 d2 : SimulationData) :
  (forall a acc, read_only (body a acc)) ->
  (forall a acc, eval (body a acc) d1 = eval (body a acc) d2) ->
  forall acc, eval (for_each l body acc) d1 = eval (for_each l body acc) d2.
Proof.
  intros Hro Hsame. induction l as [| a l IH]; intro acc; [reflexivity |].
  cbn [for_each]. unfold eval in *.
  rewrite !(bind_read_only _ _ _ (Hro a acc)). unfold eval. rewrite Hsame.
  destruct (fst (body a acc d2)); [apply IH | reflexivity].
Qed.

Lemma sum_spin_vectors_ignores_estimators
      (st : HeisenbergState.t) (tb : LookupTables) (e1 e2 : Estimators) :
  eval sum_spin_vectors_within_sublattices
       {| state := st; lookup_tables := tb; estimators := e1 |} =
  eval sum_spin_vectors_within_sublattices
       {| state := st; lookup_tables := tb; estimators := e2 |}.
Proof.
  unfold eval. rewrite !sum_spin_vectors_within_sublattices_run.
  cbn [lookup_tables].
  destruct (np_zeros_rows (number_sublattices tb)) as [rows | e]; [| reflexivity].
  apply for_each_same_value.
  - intros s acc. unfold fill_sublattice_row. auto 30 with frame.
  - intros s acc. unfold eval, fill_sublattice_row, bind, gets, lift. cbn [state].
    destruct (np_mask (HeisenbergState.x st) _); [| reflexivity].
    destruct (np_mask (HeisenbergState.y st) _); [| reflexivity].
    destruct (np_mask (HeisenbergState.z st) _); reflexivity.
Qed.

(** X14. [save_full_state] is not all-or-nothing. If the total energy cannot
    be evaluated, nothing is written; if the energy estimator is an empty
    array, [IndexError] is raised and nothing is written; but if the
    sublattice sums raise after the energy has been evaluated, the exception
    leaves the estimators half updated: the new energy is already stored and
    the spin vectors are the old ones. *)
Theorem save_full_state_failures (data : SimulationData) :
  (forall e, eval compute_total_energy data = Raise e ->
             save_full_state data = (Raise e, data)) /\
  (forall E, eval compute_total_energy data = Ok E ->
             energy (estimators data) = [] ->
             save_full_state data = (Raise IndexError, data)) /\
  (forall E e0 rest e,
      eval compute_total_energy data = Ok E ->
      energy (estimators data) = e0 :: rest ->
      eval sum_spin_vectors_within_sublattices data = Raise e ->
      save_full_state data =
      (Raise e,
       {| state := state data;
          lookup_tables := lookup_tables data;
          estimators := {| energy := E :: rest;
                           spin_vector := spin_vector (estimators data) |} |})).
Proof.
  split; [| split].
  - intros e He. unfold save_full_state.
    now rewrite (bind_read_only _ _ _ read_only_compute_total_energy), He.
  - intros E HE Hempty. unfold save_full_state.
    rewrite (bind_read_only _ _ _ read_only_compute_total_energy), HE.
    unfold bind at 1, gets at 1. unfold bind at 1, lift at 1.
    now rewrite Hempty.
  - intros E e0 rest e HE Henergy Hsums. unfold save_full_state.
    rewrite (bind_read_only _ _ _ read_only_compute_total_energy), HE.
    unfold bind at 1, gets at 1. unfold bind at 1, lift at 1.
    rewrite Henergy.
    change (np_setitem (e0 :: rest) 0 E)
      with (np_setitem ([] ++ e0 :: rest) (Z.of_nat (length (@nil float))) E).
    rewrite np_setitem_middle. cbn [app].
    unfold bind at 1, modify at 1.
    rewrite (bind_read_only _ _ _ read_only_sum_spin_vectors_within_sublattices).
    destruct data as [st tb est]. unfold set_estimators.
    cbn [state lookup_tables estimators] in *.
    rewrite (sum_spin_vectors_ignores_estimators st tb _ est), Hsums.
    reflexivity.
Qed.

Lemma save_full_state_failures_witness :
  save_full_state ragged_data =
  (Raise IndexError,
   {| state := state ragged_data;
      lookup_tables := lookup_tables ragged_data;
      estimators := {| energy := [-1]%float;
                       spin_vector := spin_vector (estimators ragged_data) |} |}).
Proof.
  destruct (save_full_state_failures ragged_data) as (_ & _ & Hhalf).
  apply (Hhalf (-1)%float 0%float [] IndexError); reflexivity.
Defined.

(** X15. After a successful [save_full_state], saving again changes nothing,
    and the energy stored in the estimator is what [compute_total_energy]
    returns on the saved data: the estimators are a function of the spin state
    and the tables alone. *)
Theorem save_full_state_is_idempotent (data : SimulationData) (E : float) :
  let tb := lookup_tables data in
  let st := state data in
  eval compute_total_energy data = Ok E ->
  energy (estimators data) <> [] ->
  (0 <= number_sublattices tb)%Z ->
  np_len (spin_vector (estimators data)) = number_sublattices tb ->
  length (HeisenbergState.x st) = length (sublattice_table tb) ->
  length (HeisenbergState.y st) = length (sublattice_table tb) ->
  length (HeisenbergState.z st) = length (sublattice_table tb) ->
  exists data',
    save_full_state data = (Ok tt, data') /\
    save_full_state data' = (Ok tt, data') /\
    eval compute_total_energy data' = np_getitem (energy (estimators data')) 0.
Proof.
  intros tb st HE Hne Hk Hrows Hx Hy Hz.
  pose proof (save_full_state_estimators data E HE Hne Hk Hrows Hx Hy Hz) as Hsave.
  cbv zeta in Hsave. fold tb st in Hsave.
  eexists. split; [exact Hsave |].
  destruct data as [st0 tb0 est]. cbn [state lookup_tables estimators] in *.
  subst tb st.
  assert (HE' : eval compute_total_energy
                  {| state := st0; lookup_tables := tb0;
                     estimators :=
                       {| energy := E :: tl (energy est);
                          spin_vector := map (sublattice_sum
                                                {| state := st0; lookup_tables := tb0;
                                                   estimators := est |})
                                             (range (number_sublattices tb0)) |} |}
                = Ok E)
    by (rewrite <- HE; apply compute_total_energy_ignores_estimators).
  split; [| now rewrite HE'].
  rewrite (save_full_state_estimators _ E HE');
    cbn [state lookup_tables estimators energy spin_vector tl];
    try assumption; try reflexivity.
  - discriminate.
  - unfold np_len, range. rewrite !length_map, length_seq. lia.
Qed.

Lemma save_full_state_is_idempotent_witness :
  exists data',
    save_full_state two_site_data = (Ok tt, data') /\
    save_full_state data' = (Ok tt, data') /\
    eval compute_total_energy data' = np_getitem (energy (estimators data')) 0.
Proof.
  apply (save_full_state_is_idempotent two_site_data (-1)%float);
    try reflexivity.
  - simpl. discriminate.
  - simpl. lia.
Defined.

(** ** Beyond the specification: the sampled state *)

Section SampledState.

Variables np_sin np_cos np_arccos : float -> float.

(** X17. [sample_random_state] refuses a negative site count with
    [ValueError] before any double is drawn, and for a count of zero returns
    the empty state, again leaving the generator where it was. *)
Theorem sample_random_state_degenerate_counts (number_sites : Z) (g : RandomState) :
  ((number_sites < 0)%Z ->
   sample_random_state np_sin np_cos np_arccos number_sites g
   = (Raise ValueError, g)) /\
  (number_sites = 0%Z ->
   sample_random_state np_sin np_cos np_arccos number_sites g
   = (Ok (HeisenbergState.make [] [] []), g)).
Proof.
  split; intro H.
  - unfold sample_random_state, bind at 1, np_random_uniform.
    destruct (Z.ltb_spec number_sites 0); [reflexivity | lia].
  - subst number_sites. destruct g as [d c]. reflexivity.
Qed.

(** X22. For every site count [number_sites >= 0], [sample_random_state]
    returns a state whose [x], [y] and [z] arrays each have length
    [number_sites]; its only effect is to consume [2 * number_sites] doubles
    of the generator, the first [number_sites] of them for the azimuths and
    the others for the polar angles.  At site [i] the vector is
    [(sin phi * cos theta, sin phi * sin theta, cos phi)], each product a
    rounded double, with [theta = (2 * pi) * u] for the [i]-th double [u] and
    [phi = arccos w] for [w = -1 + 2 * v] from the [(number_sites + i)]-th
    double [v], where [2 * pi] is the double [2 * np.pi]. *)
Theorem sample_random_state_components (number_sites : Z) (g : RandomState) :
  (0 <= number_sites)%Z ->
  let n := Z.to_nat number_sites in
  exists st,
    sample_random_state np_sin np_cos np_arccos number_sites g
    = (Ok st, advance g (n + n)) /\
    np_len (HeisenbergState.x st) = number_sites /\
    np_len (HeisenbergState.y st) = number_sites /\
    np_len (HeisenbergState.z st) = number_sites /\
    forall i, (0 <= i < number_sites)%Z ->
      let u := draws g (cursor g + Z.to_nat i)%nat in
      let v := draws g (cursor g + n + Z.to_nat i)%nat in
      let theta := (0x1.921fb54442d18p+2 * (0 + 1 * u))%float in
      let phi := np_arccos (-1 + 2 * v)%float in
      spin_at st i = (np_sin phi * np_cos theta,
                      np_sin phi * np_sin theta,
                      np_cos phi)%float.
Proof.
  intros Hn n. eexists. split; [now apply sample_random_state_run |].
  cbn [HeisenbergState.x HeisenbergState.y HeisenbergState.z].
  unfold np_len. rewrite !length_map, !length_seq. fold n.
  repeat split; try (unfold n; lia).
  intros i Hi. unfold spin_at.
  cbn [HeisenbergState.x HeisenbergState.y HeisenbergState.z].
  rewrite !nth_map_seq by (unfold n; lia). reflexivity.
Qed.

End SampledState.

Lemma sample_random_state_degenerate_counts_witness :
  sample_random_state PrimFloat.sqrt PrimFloat.sqrt PrimFloat.sqrt (-1)
                      (constant_generator 0)
  = (Raise ValueError, constant_generator 0) /\
  sample_random_state PrimFloat.sqrt PrimFloat.sqrt PrimFloat.sqrt 0
                      (constant_generator 0)
  = (Ok (HeisenbergState.make [] [] []), constant_generator 0).
Proof.
  destruct (sample_random_state_degenerate_counts
              PrimFloat.sqrt PrimFloat.sqrt PrimFloat.sqrt
              (-1) (constant_generator 0)) as [Hneg _].
  destruct (sample_random_state_degenerate_counts
              PrimFloat.sqrt PrimFloat.sqrt PrimFloat.sqrt
              0 (constant_generator 0)) as [_ Hzero].
  split; [apply Hneg; lia | now apply Hzero].
Defined.

(** With the square root in the place of the three routines and a generator
    that always yields [0.5], the polar cosine is [-1 + 2 * 0.5 = 0.]. *)
Lemma sample_random_state_components_witness :
  exists st,
    sample_random_state PrimFloat.sqrt PrimFloat.sqrt PrimFloat.sqrt 2
                        (constant_generator 0.5)
    = (Ok st, advance (constant_generator 0.5) 4) /\
    np_len (HeisenbergState.x st) = 2%Z /\
    nth 1 (HeisenbergState.z st) 0%float = 0%float.
Proof.
  destruct (sample_random_state_components
              PrimFloat.sqrt PrimFloat.sqrt PrimFloat.sqrt
              2 (constant_generator 0.5))
    as (st & Hrun & Hx & _ & _ & Hsite); [lia |].
  exists st. split; [exact Hrun |]. split; [exact Hx |].
  pose proof (Hsite 1%Z) as H1. cbv zeta in H1.
  assert (Hz : nth 1 (HeisenbergState.z st) 0%float = snd (spin_at st 1))
    by reflexivity.
  rewrite Hz, H1 by lia. reflexivity.
Defined.

(** X19. The energies follow numpy's reading of negative indices: with
    per-site arrays of length [n] and [- n <= i < 0],
    [compute_site_energy i] and [compute_energy_of_spin_vector_at_site s i]
    return what they return at site [n + i]. *)
Theorem site_energy_wraps_negative_index (data : SimulationData) (i n : Z) :
  np_len (HeisenbergState.x (state data)) = n ->
  np_len (HeisenbergState.y (state data)) = n ->
  np_len (HeisenbergState.z (state data)) = n ->
  np_len (neighbors_count (lookup_tables data)) = n ->
  np_len (neighbors_lookup_index (lookup_tables data)) = n ->
  (- n <= i < 0)%Z ->
  compute_site_energy i data = compute_site_energy (i + n) data /\
  forall s, compute_energy_of_spin_vector_at_site s i data =
            compute_energy_of_spin_vector_at_site s (i + n) data.
Proof.
  intros Hx Hy Hz Hc Ho Hi.
  assert (Htrial : forall s d, d = data ->
             compute_energy_of_spin_vector_at_site s i d =
             compute_energy_of_spin_vector_at_site s (i + n) d).
  { intros s d ->. unfold compute_energy_of_spin_vector_at_site, bind.
    now rewrite (lookup_neighbor_states_negative data i n Hc Ho Hi). }
  split; [| intro s; now apply Htrial].
  unfold compute_site_energy.
  rewrite !(bind_read_only _ _ _ (read_only_get_site_spin_vector _)).
  unfold eval. rewrite (get_site_spin_vector_negative data i n Hx Hy Hz Hi).
  destruct (fst (get_site_spin_vector (i + n) data)); [| reflexivity].
  now apply Htrial.
Qed.

Lemma site_energy_wraps_negative_index_witness :
  compute_site_energy (-1) two_site_data = compute_site_energy 1 two_site_data.
Proof.
  apply (site_energy_wraps_negative_index two_site_data (-1) 2);
    try reflexivity. lia.
Defined.
